(** * LancorC admin dashboard: the client-side logic, embedded and verified

    The console is a Next.js front end: an [AuthProvider] that keeps the
    session in memory and in local storage, a two-step e-mail/OTP
    [LoginDialog], a root layout that gates every route, and a users page
    that queries a REST API.  This file embeds the decision logic of those
    components as functions over explicit state and proves the properties
    the specification states about them.

    Conventions.
    - Values that TypeScript leaves at type [any] (the body of a fetch
      response, the user object handed to [login]) are [JsVal]s, with the
      JavaScript operators the code applies to them ([||], [??], [?.],
      [===], template strings) written out.
    - React state is a record; an event handler is a function from the
      state it closes over to the next state and the request it issues.
    - Times are milliseconds since the epoch, as [Date.now()] gives them.
    - A string is a sequence of code units below 256 (Latin-1); on
      these [trim], [toLowerCase] and the digit class are the
      platform's.  A number inside a [JsVal] is an integer of magnitude
      below 2^53, the range in which every integer is a number of its own
      and prints as its decimal digits. *)

From Stdlib Require Import ZArith Lia Bool Ascii String List.
From stdpp Require Import base option list strings gmap pretty.

Local Open Scope string_scope.
Local Open Scope Z_scope.

Set Warnings "-register-all".

(* ===================================================================== *)
(** ** JavaScript values *)
(* ===================================================================== *)

Module Js.

(** The integers a number can hold exactly. *)
Definition Integer : Type := { n : Z | (Z.abs n <? 2 ^ 53) = true }.

(** What [JSON.parse] can produce, plus [undefined].  Numbers are the
    integral ones; an object is its list of properties, the first binding
    of a key being the property's value. *)
Inductive JsVal : Type :=
| JUndefined
| JNull
| JBool (b : bool)
| JNum (n : Integer)
| JStr (s : string)
| JArr (items : list JsVal)
| JObj (props : list (string * JsVal)).

(** [!!v] *)
Definition truthy (v : JsVal) : bool :=
  match v with
  | JUndefined | JNull => false
  | JBool b => b
  | JNum n => negb (`n =? 0)
  | JStr s => negb (String.eqb s "")
  | JArr _ | JObj _ => true
  end.

(** [v === null || v === undefined] *)
Definition nullish (v : JsVal) : bool :=
  match v with
  | JUndefined | JNull => true
  | _ => false
  end.

(** [a || b] *)
Definition or_else (a b : JsVal) : JsVal := if truthy a then a else b.

(** [a ?? b] *)
Definition coalesce (a b : JsVal) : JsVal := if nullish a then b else a.

Fixpoint assoc (k : string) (props : list (string * JsVal)) : JsVal :=
  match props with
  | [] => JUndefined
  | (k', v) :: rest => if String.eqb k k' then v else assoc k rest
  end.

(** [v.k] on a value already known not to be [null] or [undefined]:
    none of the keys the program reads is defined on a primitive or on
    an array, so only objects answer. *)
Definition field (v : JsVal) (k : string) : JsVal :=
  match v with
  | JObj props => assoc k props
  | _ => JUndefined
  end.

(** [v.k]; [None] is the [TypeError] thrown on [null] and [undefined]. *)
Definition prop (v : JsVal) (k : string) : option JsVal :=
  if nullish v then None else Some (field v k).

(** [v?.k] *)
Definition opt_prop (v : JsVal) (k : string) : JsVal :=
  if nullish v then JUndefined else field v k.

(** [v === "s"] for a string literal *)
Definition is_str (v : JsVal) (s : string) : bool :=
  match v with
  | JStr t => String.eqb t s
  | _ => false
  end.

(** [v === false] *)
Definition is_false (v : JsVal) : bool :=
  match v with
  | JBool false => true
  | _ => false
  end.

(** [`${v}`]: the string a template literal splices in. *)
Fixpoint to_string (v : JsVal) : string :=
  match v with
  | JUndefined => "undefined"
  | JNull => "null"
  | JBool true => "true"
  | JBool false => "false"
  | JNum n => pretty (`n)
  | JStr s => s
  | JArr items =>
      String.concat ","
        (List.map (fun x => if nullish x then "" else to_string x) items)
  | JObj _ => "[object Object]"
  end.

Notation "a ||| b" := (or_else a b) (at level 50, left associativity).
Notation "a ??? b" := (coalesce a b) (at level 50, left associativity).

(** The message of the [TypeError] raised by reading [k] off [null]. *)
Definition type_error_message (v : JsVal) (k : string) : string :=
  "Cannot read properties of " +:+ to_string v +:+ " (reading '" +:+ k +:+ "')".

End Js.

Import Js.

(* ===================================================================== *)
(** ** Local storage *)
(* ===================================================================== *)

Module AuthContext.

(** [interface StoredAuth] *)
Record StoredAuth := {
  stored_user : JsVal;
  stored_token : JsVal;
  timestamp : Z;
}.

(** The numbers that are no integers: not-a-number and the infinities. *)
Inductive Special := NaN | PlusInfinity | MinusInfinity.

(** The number a timestamp is taken for in [now - parsed.timestamp]. *)
Inductive Number :=
| Int (t : Z)
| Spec (n : Special).

(** A value held by [localStorage], classed by what [JSON.parse] and the
    mount effect make of it.
    - [Text s] is the string [s], one that [JSON.parse] rejects with a
      [SyntaxError].
    - [Json a] is JSON text of a value other than [null] whose [user] and
      [token] properties are those of [a] and whose [timestamp] property,
      as a number, is the integer [timestamp a]; [JSON.stringify] of a
      session is such a text.
    - [JsonNull] is the text [null].
    - [JsonOdd u t n] is JSON text of a value other than [null] with
      [user] property [u] and [token] property [t] ([undefined] where the
      value has none) whose [timestamp] property, as a number, is [n]:
      not-a-number when the property is missing or is not numeric (the
      texts [{}] and [123], a session without timestamp), or infinite.
    A text whose timestamp is a number with a fraction is not covered. *)
Inductive StorageValue :=
| Text (s : string)
| Json (a : StoredAuth)
| JsonNull
| JsonOdd (u t : JsVal) (n : Special).

(** What [JSON.parse] returns, as the mount effect reads it: [null], or a
    value with its [user], [token] and [timestamp] properties. *)
Inductive Parsed :=
| ParsedNull
| ParsedValue (u t : JsVal) (ts : Number).

Abbreviation LocalStorage := (gmap string StorageValue).

(** Truthiness of the string [getItem] returned: only [""] is falsy, and
    a JSON text is never empty. *)
Definition nonempty (v : StorageValue) : bool :=
  match v with
  | Text s => negb (String.eqb s "")
  | Json _ | JsonNull | JsonOdd _ _ _ => true
  end.

Definition JSON_stringify (a : StoredAuth) : StorageValue := Json a.

(** [None] is the exception [JSON.parse] throws. *)
Definition JSON_parse (v : StorageValue) : option Parsed :=
  match v with
  | Text _ => None
  | Json a => Some (ParsedValue (stored_user a) (stored_token a) (Int (timestamp a)))
  | JsonNull => Some ParsedNull
  | JsonOdd u t n => Some (ParsedValue u t (Spec n))
  end.

Definition AUTH_STORAGE_KEY : string := "lancorc_auth".
Definition EXPIRATION_MS : Z := 48 * 60 * 60 * 1000.

(** [interface AuthResponse] *)
Record AuthResponse := {
  resp_token : JsVal;
  resp_user : JsVal;
}.

(** The three [useState] cells of [AuthProvider]. *)
Record AuthState := {
  user : JsVal;
  token : JsVal;
  isLoading : bool;
}.

Definition initial : AuthState :=
  {| user := JNull; token := JNull; isLoading := true |}.

Definition setUser (u : JsVal) (s : AuthState) : AuthState :=
  {| user := u; token := token s; isLoading := isLoading s |}.
Definition setToken (t : JsVal) (s : AuthState) : AuthState :=
  {| user := user s; token := t; isLoading := isLoading s |}.
Definition setIsLoading (b : bool) (s : AuthState) : AuthState :=
  {| user := user s; token := token s; isLoading := b |}.

(** [now - ts > EXPIRATION_MS]: a comparison with not-a-number is false;
    taking away plus infinity gives minus infinity, and the reverse. *)
Definition expired (now : Z) (ts : Number) : bool :=
  match ts with
  | Int t => EXPIRATION_MS <? now - t
  | Spec NaN => false
  | Spec PlusInfinity => false
  | Spec MinusInfinity => true
  end.

(** The body of the mount effect, up to [setIsLoading(false)].  Reading
    [parsed.timestamp] off [null] throws, and the [catch] removes the
    entry as it does for text that does not parse. *)
Definition restore (now : Z) (ls : LocalStorage) (s : AuthState)
  : LocalStorage * AuthState :=
  match ls !! AUTH_STORAGE_KEY with
  | Some stored =>
      if nonempty stored then
        match JSON_parse stored with
        | Some (ParsedValue u t ts) =>
            if expired now ts
            then (delete AUTH_STORAGE_KEY ls, s)
            else (ls, setToken t (setUser u s))
        | Some ParsedNull => (delete AUTH_STORAGE_KEY ls, s)
        | None => (delete AUTH_STORAGE_KEY ls, s)
        end
      else (ls, s)
  | None => (ls, s)
  end.

(** The mount effect of [AuthProvider]. *)
Definition mount (now : Z) (ls : LocalStorage) (s : AuthState)
  : LocalStorage * AuthState :=
  let '(ls', s') := restore now ls s in
  (ls', setIsLoading false s').

Definition logout (ls : LocalStorage) (s : AuthState)
  : LocalStorage * AuthState :=
  (delete AUTH_STORAGE_KEY ls, setToken JNull (setUser JNull s)).

Definition login (response : AuthResponse) (now : Z)
           (ls : LocalStorage) (s : AuthState)
  : LocalStorage * AuthState :=
  let stored := {| stored_user := resp_user response;
                   stored_token := resp_token response;
                   timestamp := now |} in
  (<[AUTH_STORAGE_KEY := JSON_stringify stored]> ls,
   setToken (resp_token response) (setUser (resp_user response) s)).

(** [user?.user_type === "ADMIN"] *)
Definition isAdmin (s : AuthState) : bool :=
  is_str (opt_prop (user s) "user_type") "ADMIN".

(** [!!user && !!token] *)
Definition isAuthenticated (s : AuthState) : bool :=
  truthy (user s) && truthy (token s).

(** What the provider can be asked to do once it is on screen. *)
Inductive Op :=
| OpMount (now : Z)
| OpLogin (response : AuthResponse) (now : Z)
| OpLogout.

Definition apply_op (o : Op) (p : LocalStorage * AuthState)
  : LocalStorage * AuthState :=
  match o with
  | OpMount now => mount now p.1 p.2
  | OpLogin r now => login r now p.1 p.2
  | OpLogout => logout p.1 p.2
  end.

(** The provider's history, oldest operation first. *)
Definition run (ops : list Op) (p : LocalStorage * AuthState)
  : LocalStorage * AuthState :=
  fold_left (fun acc o => apply_op o acc) ops p.

End AuthContext.

(* ===================================================================== *)
(** ** Strings, as the handlers use them *)
(* ===================================================================== *)

Module Str.

(** White space and line terminators that [trim] strips: tab to carriage
    return, space, and the no-break space. *)
Definition is_space (c : ascii) : bool :=
  let n := nat_of_ascii c in
  ((9 <=? n) && (n <=? 13) || (n =? 32) || (n =? 160))%nat.

Definition is_digit (c : ascii) : bool :=
  let n := nat_of_ascii c in
  ((48 <=? n) && (n <=? 57))%nat.

Fixpoint trimStart (s : string) : string :=
  match s with
  | String c rest => if is_space c then trimStart rest else s
  | EmptyString => EmptyString
  end.

(** [s.trimEnd()]: a character stays when it, or something after it,
    is not white space. *)
Fixpoint trimEnd (s : string) : string :=
  match s with
  | String c rest =>
      match trimEnd rest with
      | EmptyString => if is_space c then EmptyString else String c EmptyString
      | kept => String c kept
      end
  | EmptyString => EmptyString
  end.

Definition trim (s : string) : string := trimEnd (trimStart s).

(** [!s], for a string. *)
Definition empty (s : string) : bool := String.eqb s "".

(** [s.split("@")[0]] *)
Fixpoint before_at (s : string) : string :=
  match s with
  | String c rest => if Ascii.eqb c "@" then EmptyString else String c (before_at rest)
  | EmptyString => EmptyString
  end.

(** [s.replace(/\D/g, "")] *)
Fixpoint digits_only (s : string) : string :=
  match s with
  | String c rest =>
      if is_digit c then String c (digits_only rest) else digits_only rest
  | EmptyString => EmptyString
  end.

(** [s.slice(0, n)] *)
Fixpoint take (n : nat) (s : string) : string :=
  match n, s with
  | S m, String c rest => String c (take m rest)
  | _, _ => EmptyString
  end.

(** [s.length] *)
Definition len (s : string) : Z := Z.of_nat (String.length s).

(** The lower case of a code unit: of A to Z, and of the accented capitals
    192 to 222, the multiplication sign 215 apart. *)
Definition lower (c : ascii) : ascii :=
  let n := nat_of_ascii c in
  if ((65 <=? n) && (n <=? 90)
      || (192 <=? n) && (n <=? 222) && negb (n =? 215))%nat
  then ascii_of_nat (n + 32) else c.

(** [s.toLowerCase()] *)
Fixpoint toLowerCase (s : string) : string :=
  match s with
  | String c rest => String (lower c) (toLowerCase rest)
  | EmptyString => EmptyString
  end.

(** The code units of the upper case of a code unit.  The letters a to z
    and the accented letters 224 to 254 (the division sign 247 apart) move
    down by 32; the sharp s (223) becomes two letters S; the capitals of
    the micro sign (181) and of the y with diaeresis (255) lie beyond 255,
    which is why the result is a list of numbers. *)
Definition upper_units (c : ascii) : list N :=
  let n := N_of_ascii c in
  (if (97 <=? n) && (n <=? 122) then [n - 32]
   else if n =? 181 then [924]
   else if n =? 223 then [83; 83]
   else if (224 <=? n) && (n <=? 254) && negb (n =? 247) then [n - 32]
   else if n =? 255 then [376]
   else [n])%N.

(** [s.toUpperCase()], as code units. *)
Fixpoint toUpperCase (s : string) : list N :=
  match s with
  | String c rest => (upper_units c ++ toUpperCase rest)%list
  | EmptyString => []
  end.

Fixpoint startsWith (s t : string) : bool :=
  match t, s with
  | EmptyString, _ => true
  | String b t', String a s' => Ascii.eqb a b && startsWith s' t'
  | String _ _, EmptyString => false
  end.

(** [s.includes(t)] *)
Fixpoint includes (s t : string) : bool :=
  startsWith s t ||
  match s with
  | String _ s' => includes s' t
  | EmptyString => false
  end.

End Str.

(* ===================================================================== *)
(** ** The login dialog *)
(* ===================================================================== *)

Module LoginDialog.

Import AuthContext.

Definition API_BASE : string := "http://localhost:8080/auth".
Definition MAX_ATTEMPTS : Z := 3.
Definition OTP_EXPIRY_MINUTES : Z := 10.

Definition MSG_ENTER_EMAIL : string := "Please enter your email address".
Definition MSG_SEND_FAILED : string := "Failed to send OTP".
Definition MSG_OTP_SENT : string := "OTP sent to your email successfully!".
Definition MSG_INVALID_FORMAT : string := "Please enter a valid 6-digit OTP".
Definition MSG_MAX_ATTEMPTS : string :=
  "Maximum attempts exceeded. Please request a new OTP.".
Definition MSG_EXPIRED : string := "OTP has expired. Please request a new one.".

(** [type Step = "email" | "otp"] *)
Inductive Step := StepEmail | StepOtp.

#[global] Instance Step_eq_dec : EqDecision Step.
Proof. solve_decision. Defined.

(** The component's [useState] cells and its [timerRef].  [timer] is
    [Some sent] while the interval is running, [sent] being the
    [otpSentTime] its callback closed over. *)
Record State := {
  step : Step;
  email : string;
  otp : string;
  isLoading : bool;
  error : string;
  success : string;
  attempts : Z;
  otpSentTime : option Z;
  timeLeft : Z;
  timer : option Z;
}.

Definition initial : State :=
  {| step := StepEmail; email := EmptyString; otp := EmptyString;
     isLoading := false; error := EmptyString; success := EmptyString;
     attempts := 0; otpSentTime := None;
     timeLeft := OTP_EXPIRY_MINUTES * 60; timer := None |}.

Definition setStep v s :=
  {| step := v; email := email s; otp := otp s; isLoading := isLoading s;
     error := error s; success := success s; attempts := attempts s;
     otpSentTime := otpSentTime s; timeLeft := timeLeft s; timer := timer s |}.
Definition setEmail v s :=
  {| step := step s; email := v; otp := otp s; isLoading := isLoading s;
     error := error s; success := success s; attempts := attempts s;
     otpSentTime := otpSentTime s; timeLeft := timeLeft s; timer := timer s |}.
Definition setOtp v s :=
  {| step := step s; email := email s; otp := v; isLoading := isLoading s;
     error := error s; success := success s; attempts := attempts s;
     otpSentTime := otpSentTime s; timeLeft := timeLeft s; timer := timer s |}.
Definition setIsLoading v s :=
  {| step := step s; email := email s; otp := otp s; isLoading := v;
     error := error s; success := success s; attempts := attempts s;
     otpSentTime := otpSentTime s; timeLeft := timeLeft s; timer := timer s |}.
Definition setError v s :=
  {| step := step s; email := email s; otp := otp s; isLoading := isLoading s;
     error := v; success := success s; attempts := attempts s;
     otpSentTime := otpSentTime s; timeLeft := timeLeft s; timer := timer s |}.
Definition setSuccess v s :=
  {| step := step s; email := email s; otp := otp s; isLoading := isLoading s;
     error := error s; success := v; attempts := attempts s;
     otpSentTime := otpSentTime s; timeLeft := timeLeft s; timer := timer s |}.
Definition setAttempts v s :=
  {| step := step s; email := email s; otp := otp s; isLoading := isLoading s;
     error := error s; success := success s; attempts := v;
     otpSentTime := otpSentTime s; timeLeft := timeLeft s; timer := timer s |}.
Definition setOtpSentTime v s :=
  {| step := step s; email := email s; otp := otp s; isLoading := isLoading s;
     error := error s; success := success s; attempts := attempts s;
     otpSentTime := v; timeLeft := timeLeft s; timer := timer s |}.
Definition setTimeLeft v s :=
  {| step := step s; email := email s; otp := otp s; isLoading := isLoading s;
     error := error s; success := success s; attempts := attempts s;
     otpSentTime := otpSentTime s; timeLeft := v; timer := timer s |}.
Definition setTimer v s :=
  {| step := step s; email := email s; otp := otp s; isLoading := isLoading s;
     error := error s; success := success s; attempts := attempts s;
     otpSentTime := otpSentTime s; timeLeft := timeLeft s; timer := v |}.

(** A [fetch] to one of the two auth endpoints; the body is the object
    handed to [JSON.stringify]. *)
Record Request := {
  url : string;
  method : string;
  body : JsVal;
}.

(** What [res.json()] settles to. *)
Inductive Body :=
| JsonBody (data : JsVal)
| NotJson (message : string).

(** What the [fetch] promise settles to; a rejection carries the
    message of its error. *)
Inductive FetchResult :=
| Responded (ok : bool) (payload : Body)
| Rejected (message : string).

(** The request in flight, with the values its [then] callback closed
    over when the handler ran. *)
Inductive Pending :=
| PendingSend
| PendingVerify (email : string) (attempts : Z).

(** *** The two effects *)

(** [useEffect(..., [step, otpSentTime])]: when either dependency has
    changed, the clean-up clears the interval and the body starts a new
    one if the dialog is on the OTP step with a truthy send time. *)
Definition timer_effect (before after : State) : State :=
  match decide (step before = step after ∧ otpSentTime before = otpSentTime after) with
  | left _ => after
  | right _ =>
      match step after, otpSentTime after with
      | StepOtp, Some sent =>
          if sent =? 0 then setTimer None after else setTimer (Some sent) after
      | _, _ => setTimer None after
      end
  end.

(** The body of [useEffect(..., [open])] for [open = false]. *)
Definition reset_on_close (s : State) : State :=
  setTimer None
    (setTimeLeft (OTP_EXPIRY_MINUTES * 60)
      (setOtpSentTime None
        (setAttempts 0
          (setSuccess EmptyString
            (setError EmptyString
              (setOtp EmptyString
                (setEmail EmptyString
                  (setStep StepEmail s)))))))).

(** The interval callback, which closed over [sent]. *)
Definition on_interval (sent now : Z) (s : State) : State :=
  let elapsed := (now - sent) / 1000 in
  let remaining := OTP_EXPIRY_MINUTES * 60 - elapsed in
  let s1 :=
    if remaining <=? 0
    then setTimer None (setOtp EmptyString (setError MSG_EXPIRED s))
    else s in
  setTimeLeft remaining s1.

(** *** Sending the OTP *)

Definition handleSendOtp (s : State) : State * option Request :=
  if Str.empty (Str.trim (email s)) then
    (setError MSG_ENTER_EMAIL s, None)
  else
    (setIsLoading true (setSuccess EmptyString (setError EmptyString s)),
     Some {| url := API_BASE +:+ "/request-otp"; method := "POST";
             body := JObj [("email", JStr (email s))] |}).

(** The [catch] of [handleSendOtp]. *)
Definition send_failed (message : string) (s : State) : State :=
  setIsLoading false
    (setError (if Str.empty message then MSG_SEND_FAILED else message) s).

(** The [then]/[catch] chain of [handleSendOtp]. *)
Definition on_send_reply (r : FetchResult) (now : Z) (s : State) : State :=
  match r with
  | Responded true _ =>
      setIsLoading false
        (setAttempts 0
          (setOtpSentTime (Some now)
            (setStep StepOtp (setSuccess MSG_OTP_SENT s))))
  | Responded false (JsonBody data) =>
      match prop data "message" with
      | Some m => send_failed (to_string (m ||| JStr MSG_SEND_FAILED)) s
      | None => send_failed (type_error_message data "message") s
      end
  | Responded false (NotJson message) => send_failed message s
  | Rejected message => send_failed message s
  end.

(** *** Verifying the OTP *)

Definition valid_format (code : string) : bool :=
  negb (Str.empty (Str.trim code)) && (Str.len code =? 6).

Definition handleVerifyOtp (s : State) : State * option Request :=
  if negb (valid_format (otp s)) then
    (setError MSG_INVALID_FORMAT s, None)
  else if MAX_ATTEMPTS <=? attempts s then
    (setError MSG_MAX_ATTEMPTS s, None)
  else
    (setIsLoading true (setError EmptyString s),
     Some {| url := API_BASE +:+ "/verify-otp"; method := "POST";
             body := JObj [("email", JStr (email s)); ("otp", JStr (otp s))] |}).

(** The condition under which a reply counts as a failed verification;
    [None] when evaluating it throws. *)
Definition verification_failed (ok : bool) (data : JsVal) : option bool :=
  if negb ok then Some true
  else
    match prop data "success" with
    | None => None
    | Some success_flag =>
        Some (is_false success_flag
              || is_false (field data "valid")
              || truthy (field data "error"))
    end.

(** The object literal that stands in for a missing user object. *)
Definition fallback_user (email : string) (data : JsVal) : JsVal :=
  JObj [
    ("user_id", field data "userId" ||| field data "id" ||| field data "user_id"
                ||| JStr EmptyString);
    ("society_id", field data "societyId" ||| field data "society_id"
                   ||| JStr EmptyString);
    ("full_name", field data "name" ||| field data "fullName"
                  ||| field data "full_name" ||| JStr (Str.before_at email));
    ("email", field data "email" ||| JStr email);
    ("phone", field data "phone" ||| JStr EmptyString);
    ("user_type", field data "userType" ||| field data "user_type"
                  ||| field data "role" ||| JStr "ADMIN");
    ("is_active", field data "isActive" ??? field data "is_active"
                  ??? JBool true)
  ].

(** [authResponse], built from a reply that passed the check. *)
Definition build_auth_response (email : string) (data : JsVal) : AuthResponse :=
  {| resp_token :=
       field data "token" ||| field data "jwt" ||| field data "accessToken"
       ||| opt_prop (field data "data") "token" ||| JStr EmptyString;
     resp_user :=
       field data "user" ||| field data "userDto" ||| field data "profile"
       ||| opt_prop (field data "data") "user" ||| fallback_user email data |}.

(** What the reply handler asks of its surroundings. *)
Record Outcome := {
  next : State;
  login_call : option AuthResponse;
  close_call : bool;
}.

Definition stay (s : State) : Outcome :=
  {| next := s; login_call := None; close_call := false |}.

(** The [catch] of [handleVerifyOtp]; every rejection here is an [Error]. *)
Definition verify_threw (message : string) (s : State) : Outcome :=
  stay (setIsLoading false (setError message s)).

(** The [then]/[catch] chain of [handleVerifyOtp], for the handler run
    that closed over [email0] and [attempts0]. *)
Definition on_verify_reply (email0 : string) (attempts0 : Z)
           (r : FetchResult) (s : State) : Outcome :=
  match r with
  | Rejected message => verify_threw message s
  | Responded _ (NotJson message) => verify_threw message s
  | Responded ok (JsonBody data) =>
      match verification_failed ok data with
      | None => verify_threw (type_error_message data "success") s
      | Some true =>
          let newAttempts := attempts0 + 1 in
          let s1 := setAttempts newAttempts s in
          let remaining := MAX_ATTEMPTS - newAttempts in
          if 0 <? remaining then
            match prop data "message" with
            | None => verify_threw (type_error_message data "message") s1
            | Some m =>
                stay (setIsLoading false
                       (setError
                          (to_string (m ||| field data "error" ||| JStr "Invalid OTP")
                           +:+ ". " +:+ pretty remaining
                           +:+ " attempt(s) remaining.") s1))
            end
          else
            stay (setIsLoading false (setError MSG_MAX_ATTEMPTS s1))
      | Some false =>
          {| next := s;
             login_call := Some (build_auth_response email0 data);
             close_call := true |}
      end
  end.

Definition handleResendOtp (s : State) : State :=
  setOtpSentTime None
    (setAttempts 0
      (setSuccess EmptyString
        (setError EmptyString
          (setStep StepEmail (setOtp EmptyString s))))).

(** [onChange] of the OTP input. *)
Definition onOtpChange (value : string) (s : State) : State :=
  setOtp (Str.take 6 (Str.digits_only value)) s.

(** [disabled] of the Verify button. *)
Definition verify_disabled (s : State) : bool :=
  isLoading s || negb (Str.len (otp s) =? 6) || (MAX_ATTEMPTS <=? attempts s).

End LoginDialog.

(* ===================================================================== *)
(** ** The dialog on screen: events, the request in flight, the log *)
(* ===================================================================== *)

Module LoginFlow.

Import AuthContext LoginDialog.

(** The dialog together with what surrounds it: the [open] prop its parent
    holds, the request in flight, and a log (latest first) of the requests
    issued and of the calls made to [login]. *)
Record Machine := {
  open : bool;
  dialog : State;
  pending : option Pending;
  requests : list Request;
  logins : list AuthResponse;
}.

Definition start : Machine :=
  {| open := false; dialog := LoginDialog.initial; pending := None;
     requests := []; logins := [] |}.

Inductive Event :=
| OpenDialog                        (* the "Login to Continue" button *)
| CloseDialog                       (* the dialog's own close control *)
| TypeEmail (value : string)
| TypeOtp (value : string)
| ClickSendOtp
| ClickVerify
| ClickResend
| Tick (now : Z)                    (* the interval fires *)
| Reply (r : FetchResult) (now : Z) (* the request in flight settles *)
| Remount                           (* the layout swaps screens *).

(** Commit a new dialog state, running the timer effect. *)
Definition commit (d : State) (m : Machine) : Machine :=
  {| open := open m; dialog := timer_effect (dialog m) d;
     pending := pending m; requests := requests m; logins := logins m |}.

(** Commit the outcome of a handler that may have issued a request. *)
Definition issue (p : Pending) (r : State * option Request) (m : Machine)
  : Machine :=
  match r.2 with
  | Some req =>
      {| open := open m; dialog := timer_effect (dialog m) r.1;
         pending := Some p; requests := req :: requests m;
         logins := logins m |}
  | None => commit r.1 m
  end.

(** The parent sets [open] to [false]; the effect on [open] resets the
    dialog. *)
Definition close (m : Machine) : Machine :=
  {| open := false;
     dialog := timer_effect (dialog m) (reset_on_close (dialog m));
     pending := pending m; requests := requests m; logins := logins m |}.

Definition settle (o : Outcome) (m : Machine) : Machine :=
  let m1 :=
    {| open := open m; dialog := timer_effect (dialog m) (next o);
       pending := None; requests := requests m;
       logins := match login_call o with
                 | Some a => a :: logins m
                 | None => logins m
                 end |} in
  if close_call o then close m1 else m1.

(** One event.  A control that is not rendered, or is disabled, does not
    fire its handler.  The layout renders the dialog at a different place
    of the restricted screen and of the shell, so a switch between the two
    (it follows a login or a logout, with no request in flight) mounts a
    fresh dialog. *)
Definition fire (e : Event) (m : Machine) : Machine :=
  let d := dialog m in
  match e with
  | OpenDialog =>
      {| open := true; dialog := d; pending := pending m;
         requests := requests m; logins := logins m |}
  | CloseDialog =>
      if open m && negb (isLoading d) then close m else m
  | TypeEmail value =>
      match step d with
      | StepEmail => if open m && negb (isLoading d) then commit (setEmail value d) m else m
      | StepOtp => m
      end
  | TypeOtp value =>
      match step d with
      | StepOtp => if open m && negb (isLoading d) then commit (onOtpChange value d) m else m
      | StepEmail => m
      end
  | ClickSendOtp =>
      match step d with
      | StepEmail =>
          if open m && negb (isLoading d)
          then issue PendingSend (handleSendOtp d) m else m
      | StepOtp => m
      end
  | ClickVerify =>
      match step d with
      | StepOtp =>
          if open m && negb (verify_disabled d)
          then issue (PendingVerify (email d) (attempts d)) (handleVerifyOtp d) m
          else m
      | StepEmail => m
      end
  | ClickResend =>
      match step d with
      | StepOtp => if open m && negb (isLoading d) then commit (handleResendOtp d) m else m
      | StepEmail => m
      end
  | Tick now =>
      match timer d with
      | Some sent => commit (on_interval sent now d) m
      | None => m
      end
  | Reply r now =>
      match pending m with
      | Some PendingSend =>
          settle (stay (on_send_reply r now d)) m
      | Some (PendingVerify email0 attempts0) =>
          settle (on_verify_reply email0 attempts0 r d) m
      | None => m
      end
  | Remount =>
      match pending m with
      | None =>
          {| open := open m; dialog := LoginDialog.initial; pending := None;
             requests := requests m; logins := logins m |}
      | Some _ => m
      end
  end.

(** A history of events, oldest first. *)
Definition play (events : list Event) (m : Machine) : Machine :=
  fold_left (fun acc e => fire e acc) events m.

End LoginFlow.

(* ===================================================================== *)
(** ** The root layout and the dashboard page *)
(* ===================================================================== *)

Module Layout.

Import AuthContext.

Record SidebarItem := {
  name : string;
  href : string;
  disabled : bool;
}.

Definition sidebarItems : list SidebarItem :=
  [ {| name := "Dashboard"; href := "/"; disabled := false |};
    {| name := "Users"; href := "/users"; disabled := false |};
    {| name := "Flats"; href := "#"; disabled := true |};
    {| name := "Assets"; href := "#"; disabled := true |} ].

(** What a render puts on screen, in document order; [C] is the type of
    the routed page handed in as [children].  The header bar shows the
    user's [full_name] and, in its badge, the code units [initial]
    ([None]: an empty badge). *)
Inductive Widget (C : Type) :=
| LoadingText
| LockIcon
| RestrictedHeading
| RestrictedNotice
| LoginButton
| LoginDialogW (open : bool)
| Sidebar (items : list SidebarItem)
| SidebarLogout
| HeaderBar (full_name : JsVal) (initial : option (list N))
| HeaderLogout
| PageChildren (children : C).

Arguments LoadingText {C}.
Arguments LockIcon {C}.
Arguments RestrictedHeading {C}.
Arguments RestrictedNotice {C}.
Arguments LoginButton {C}.
Arguments LoginDialogW {C} open.
Arguments Sidebar {C} items.
Arguments SidebarLogout {C}.
Arguments HeaderBar {C} full_name initial.
Arguments HeaderLogout {C}.
Arguments PageChildren {C} children.

(** [user?.full_name?.charAt(0).toUpperCase()], the content of the round
    badge in the header.  [Some None] is [undefined], which shows nothing:
    the chain stops at a [full_name] that is [null] or [undefined].  The
    outer [None] is the [TypeError] of calling [charAt] on a value that has
    no such method, which is every other value that is not a string. *)
Definition header_initial (u : JsVal) : option (option (list N)) :=
  match opt_prop u "full_name" with
  | JUndefined | JNull => Some None
  | JStr s => Some (Some (Str.toUpperCase (Str.take 1 s)))
  | JBool _ | JNum _ | JArr _ | JObj _ => None
  end.

Section Render.

Context {C : Type}.

Definition loading_screen : list (Widget C) := [LoadingText].

Definition restricted_screen (loginDialogOpen : bool) : list (Widget C) :=
  [LockIcon; RestrictedHeading; RestrictedNotice; LoginButton;
   LoginDialogW loginDialogOpen].

(** The last [return] of the component; [None] when building it throws. *)
Definition dashboard_shell (u : JsVal) (children : C) (loginDialogOpen : bool)
  : option (list (Widget C)) :=
  match header_initial u with
  | Some initial =>
      Some [Sidebar sidebarItems; SidebarLogout;
            HeaderBar (opt_prop u "full_name") initial; HeaderLogout;
            PageChildren children;
            LoginDialogW loginDialogOpen]
  | None => None
  end.

(** [DashboardLayoutContent], for the values of its two state cells and of
    the auth context: what the render puts on screen, or [None] when the
    render throws and nothing of the component is shown. *)
Definition DashboardLayoutContent (mounted loginDialogOpen : bool)
           (auth : AuthState) (children : C) : option (list (Widget C)) :=
  if negb mounted || isLoading auth then Some loading_screen
  else if negb (isAuthenticated auth) || negb (isAdmin auth)
       then Some (restricted_screen loginDialogOpen)
       else dashboard_shell (user auth) children loginDialogOpen.

(** Some widget on screen passes the test [p]. *)
Definition shows (p : Widget C → bool) (view : option (list (Widget C))) : bool :=
  match view with
  | Some widgets => existsb p widgets
  | None => false
  end.

(** A widget of the sidebar/header shell. *)
Definition is_shell (w : Widget C) : bool :=
  match w with
  | Sidebar _ | SidebarLogout | HeaderBar _ _ | HeaderLogout => true
  | _ => false
  end.

Definition is_children (w : Widget C) : bool :=
  match w with
  | PageChildren _ => true
  | _ => false
  end.

End Render.

(** What [DashboardPage] returns. *)
Inductive PageView :=
| PageLoading
| PageNull
| PageOverview.

Definition DashboardPage (mounted : bool) (auth : AuthState) : PageView :=
  if negb mounted || isLoading auth then PageLoading
  else if negb (isAuthenticated auth) || negb (isAdmin auth) then PageNull
  else PageOverview.

End Layout.

(* ===================================================================== *)
(** ** The users page (live API) *)
(* ===================================================================== *)

Module UsersPage.

Import AuthContext.

(** A row of the fetched list.  The back end may leave the name and the
    e-mail out, or send the name as [fullName]; [None] is [undefined]. *)
Record User := {
  society_id : string;
  user_id : string;
  full_name : option string;
  fullName : option string;
  email : option string;
  phone : string;
  user_type : string;
  is_active : bool;
}.

(** [UserFormValues], the body of a create or update request. *)
Record UserFormValues := {
  form_society_id : string;
  form_full_name : string;
  form_email : string;
  form_phone : string;
  form_user_type : string;
  form_is_active : bool;
}.

Definition API_BASE : string := "http://localhost:8080/api/admin/users".

Inductive HeaderValue :=
| Literal (s : string)
| Bearer (token : StorageValue)   (* [`Bearer ${token}`] *).

Record Request := {
  method : string;
  url : string;
  headers : list (string * HeaderValue);
  body : option UserFormValues;
}.

(** [localStorage.getItem(a) || localStorage.getItem(b)] *)
Definition getItem_or (a b : string) (ls : LocalStorage) : option StorageValue :=
  match ls !! a with
  | Some v => if nonempty v then Some v else ls !! b
  | None => ls !! b
  end.

Definition getHeaders (ls : LocalStorage) : list (string * HeaderValue) :=
  let token := getItem_or "token" "auth_token" ls in
  ("Content-Type", Literal "application/json") ::
  match token with
  | Some t => if nonempty t then [("Authorization", Bearer t)] else []
  | None => []
  end.

(** The request each API function sends. *)
Definition fetchUsers (societyId : string) (ls : LocalStorage) : Request :=
  {| method := "GET"; url := API_BASE +:+ "?societyId=" +:+ societyId;
     headers := getHeaders ls; body := None |}.

Definition createUser (data : UserFormValues) (ls : LocalStorage) : Request :=
  {| method := "POST"; url := API_BASE;
     headers := getHeaders ls; body := Some data |}.

Definition updateUser (id : string) (data : UserFormValues) (ls : LocalStorage)
  : Request :=
  {| method := "PUT"; url := API_BASE +:+ "/" +:+ id;
     headers := getHeaders ls; body := Some data |}.

Definition toggleUserStatus (id : string) (active : bool) (ls : LocalStorage)
  : Request :=
  {| method := "PATCH";
     url := API_BASE +:+ "/" +:+ id +:+ "/status?active="
            +:+ (if active then "true" else "false");
     headers := getHeaders ls; body := None |}.

Definition has_authorization (r : Request) : bool :=
  existsb (fun h => String.eqb h.1 "Authorization") (headers r).

(** *** The list query *)

(** [enabled: !!user?.society_id && isAuthenticated] *)
Definition enabled (auth : AuthState) : bool :=
  truthy (opt_prop (user auth) "society_id") && isAuthenticated auth.

(** [queryFn]: [fetchUsers(user?.society_id || "")] *)
Definition queryFn (auth : AuthState) (ls : LocalStorage) : Request :=
  fetchUsers (to_string (opt_prop (user auth) "society_id" ||| JStr EmptyString)) ls.

(** The query under one key, as [useQuery] runs it: it fetches when it is
    enabled and asked to (on mount, or when invalidated), never while
    disabled, and its data changes only when a fetch of its own settles. *)
Record Query := {
  data : option (list User);
  fetching : bool;
  issued : list Request;
}.

Definition idle : Query := {| data := None; fetching := false; issued := [] |}.

Inductive QueryEvent :=
| Mounted
| Invalidated
| Settled (result : option (list User)).

Definition refetch (auth : AuthState) (ls : LocalStorage) (q : Query) : Query :=
  if enabled auth && negb (fetching q)
  then {| data := data q; fetching := true; issued := queryFn auth ls :: issued q |}
  else q.

Definition on_query (auth : AuthState) (ls : LocalStorage)
           (e : QueryEvent) (q : Query) : Query :=
  match e with
  | Mounted => refetch auth ls q
  | Invalidated => refetch auth ls q
  | Settled result =>
      if fetching q then
        {| data := match result with Some l => Some l | None => data q end;
           fetching := false; issued := issued q |}
      else q
  end.

Definition run_query (auth : AuthState) (ls : LocalStorage)
           (events : list QueryEvent) (q : Query) : Query :=
  fold_left (fun acc e => on_query auth ls e acc) events q.

(** [const { data: users = [] } = useQuery(...)] *)
Definition users (q : Query) : list User :=
  match data q with
  | Some l => l
  | None => []
  end.

(** *** Search and filter *)

(** [a || b] on strings that may be [undefined]. *)
Definition str_or (a : option string) (b : string) : string :=
  match a with
  | Some s => if Str.empty s then b else s
  | None => b
  end.

Definition display_name (u : User) : string :=
  str_or (full_name u) (str_or (fullName u) EmptyString).

Definition display_email (u : User) : string :=
  str_or (email u) EmptyString.

Definition matches (searchTerm userTypeFilter : string) (u : User) : bool :=
  let matchesSearch :=
    Str.empty searchTerm
    || Str.includes (Str.toLowerCase (display_name u)) (Str.toLowerCase searchTerm)
    || Str.includes (Str.toLowerCase (display_email u)) (Str.toLowerCase searchTerm) in
  let matchesType :=
    String.eqb userTypeFilter "ALL" || String.eqb (user_type u) userTypeFilter in
  matchesSearch && matchesType.

Definition filteredUsers (fetched : list User) (searchTerm userTypeFilter : string)
  : list User :=
  List.filter (matches searchTerm userTypeFilter) fetched.

(** *** The Delete button of a row *)

Definition delete_disabled (u : User) : bool := negb (is_active u).

(** [deleteMutation.mutate(u.user_id)], when the button lets the click
    through. *)
Definition click_delete (u : User) (ls : LocalStorage) : option Request :=
  if delete_disabled u then None
  else Some (toggleUserStatus (user_id u) false ls).

End UsersPage.

(* ===================================================================== *)
(** ** The users page over the mock API layer *)
(* ===================================================================== *)

Module MockUsersPage.

Record User := {
  society_id : string;
  user_id : string;
  full_name : string;
  email : string;
  phone : string;
  user_type : string;
  is_active : bool;
}.

#[global] Instance User_eq_dec : EqDecision User.
Proof. solve_decision. Defined.

Definition mockUsers : list User :=
  [ {| society_id := "11111111-1111-1111-1111-111111111111";
       user_id := "aaaaaaaa-aaaa-aaaa-aaaa-aaaaaaaaaaaa";
       full_name := "John Admin"; email := "admin@example.com";
       phone := "+91 98765 43210"; user_type := "ADMIN"; is_active := true |};
    {| society_id := "11111111-1111-1111-1111-111111111111";
       user_id := "bbbbbbbb-bbbb-bbbb-bbbb-bbbbbbbbbbbb";
       full_name := "Meena Owner"; email := "meena.owner@example.com";
       phone := "+91 90000 00001"; user_type := "OWNER"; is_active := true |} ].

(** [list.findIndex(u => u.user_id === id)]; [None] is [-1]. *)
Fixpoint findIndex (id : string) (l : list User) : option nat :=
  match l with
  | [] => None
  | u :: rest =>
      if String.eqb (user_id u) id then Some 0%nat
      else S <$> findIndex id rest
  end.

(** [{ ...u, is_active: false }] *)
Definition deactivated (u : User) : User :=
  {| society_id := society_id u; user_id := user_id u;
     full_name := full_name u; email := email u; phone := phone u;
     user_type := user_type u; is_active := false |}.

(** [softDeleteUser]: the new [mockUsers] and the record returned, or the
    message of the error thrown. *)
Definition softDeleteUser (id : string) (store : list User)
  : string + (list User * User) :=
  match findIndex id store with
  | None => inl "User not found"
  | Some index =>
      match store !! index with
      | Some u => inr (<[index := deactivated u]> store, deactivated u)
      | None => inl "User not found"
      end
  end.

Definition matches (searchTerm userTypeFilter : string) (u : User) : bool :=
  let term := Str.toLowerCase (Str.trim searchTerm) in
  let matchesSearch :=
    Str.empty term
    || Str.includes (Str.toLowerCase (full_name u)) term
    || Str.includes (Str.toLowerCase (email u)) term in
  let matchesType :=
    String.eqb userTypeFilter "ALL" || String.eqb (user_type u) userTypeFilter in
  matchesSearch && matchesType.

Definition filteredUsers (fetched : list User) (searchTerm userTypeFilter : string)
  : list User :=
  List.filter (matches searchTerm userTypeFilter) fetched.

(** [disabled] of a row's Delete button. *)
Definition delete_disabled (isPending : bool) (u : User) : bool :=
  isPending || negb (is_active u).

End MockUsersPage.

(* ===================================================================== *)
(** ** The vocabulary of the properties, and sample data *)
(* ===================================================================== *)

Import AuthContext.

Section SessionVocabulary.




End SessionVocabulary.

Section LayoutVocabulary.

(** The user's [full_name] is a string, or the user has none. *)
Definition name_is_text (u : JsVal) : Prop :=
  (∃ s, opt_prop u "full_name" = JStr s)
  ∨ opt_prop u "full_name" = JUndefined ∨ opt_prop u "full_name" = JNull.

End LayoutVocabulary.

Section DialogVocabulary.

Import LoginDialog LoginFlow.

(** *** What every reachable state of the dialog satisfies *)

(** The attempts counter stays within bounds; a request is in flight only
    while the dialog is loading; the verify handler's closure holds the
    current counter and e-mail; a running timer was started for the
    current send time. *)
Record consistent (m : Machine) : Prop := {
  attempts_bounds : 0 ≤ attempts (dialog m) ≤ MAX_ATTEMPTS;
  pending_loading : pending m ≠ None → isLoading (dialog m) = true;
  closure_current : ∀ email0 attempts0,
      pending m = Some (PendingVerify email0 attempts0) →
      attempts0 = attempts (dialog m) ∧ attempts0 < MAX_ATTEMPTS
      ∧ email0 = email (dialog m);
  timer_current : ∀ sent,
      timer (dialog m) = Some sent →
      otpSentTime (dialog m) = Some sent ∧ step (dialog m) = StepOtp;
}.

(** A session at the dialog: the OTP is sent at time 1000, then three
    verifications of 123456 are turned down. *)
Definition rejected : FetchResult :=
  Responded false (JsonBody (JObj [("message", JStr "Invalid OTP")])).

Definition otp_sent : list Event :=
  [OpenDialog; TypeEmail "admin@example.com"; ClickSendOtp;
   Reply (Responded true (JsonBody JNull)) 1000].

Definition three_failures : list Event :=
  otp_sent ++
  [TypeOtp "123456";
   ClickVerify; Reply rejected 2000;
   ClickVerify; Reply rejected 3000;
   ClickVerify; Reply rejected 4000].

End DialogVocabulary.

Section UsersVocabulary.

(** [text] contains [term], letter case set aside. *)
Definition contains_ci (text term : string) : Prop :=
  ∃ pre post, Str.toLowerCase text = pre +:+ Str.toLowerCase term +:+ post.

(** The condition of the specification, on the name and e-mail a row
    shows and on its type. *)
Definition shown (name mail type : string) (term filter : string) : Prop :=
  (term = EmptyString ∨ contains_ci name term ∨ contains_ci mail term)
  ∧ (filter = "ALL" ∨ filter = type).

(** Rows as the live API may send them: with the name under either key,
    or without an e-mail. *)
Definition asha : UsersPage.User :=
  {| UsersPage.society_id := "11111111-1111-1111-1111-111111111111";
     UsersPage.user_id := "aaaaaaaa-aaaa-aaaa-aaaa-aaaaaaaaaaaa";
     UsersPage.full_name := Some "Asha Rao"; UsersPage.fullName := None;
     UsersPage.email := Some "asha@example.com";
     UsersPage.phone := "+91 90000 00000"; UsersPage.user_type := "ADMIN";
     UsersPage.is_active := true |}.

Definition meena : UsersPage.User :=
  {| UsersPage.society_id := "11111111-1111-1111-1111-111111111111";
     UsersPage.user_id := "bbbbbbbb-bbbb-bbbb-bbbb-bbbbbbbbbbbb";
     UsersPage.full_name := None; UsersPage.fullName := Some "Meena Owner";
     UsersPage.email := Some "meena.owner@example.com";
     UsersPage.phone := "+91 90000 00001"; UsersPage.user_type := "OWNER";
     UsersPage.is_active := true |}.

Definition deena : UsersPage.User :=
  {| UsersPage.society_id := "11111111-1111-1111-1111-111111111111";
     UsersPage.user_id := "dddddddd-dddd-dddd-dddd-dddddddddddd";
     UsersPage.full_name := Some "Deena"; UsersPage.fullName := None;
     UsersPage.email := None;
     UsersPage.phone := "+91 90000 00003"; UsersPage.user_type := "TENANT";
     UsersPage.is_active := false |}.

Definition residents : list UsersPage.User := [asha; meena; deena].

Definition bob : MockUsersPage.User :=
  {| MockUsersPage.society_id := "11111111-1111-1111-1111-111111111111";
     MockUsersPage.user_id := "cccccccc-cccc-cccc-cccc-cccccccccccc";
     MockUsersPage.full_name := "Bob"; MockUsersPage.email := "bob@example.com";
     MockUsersPage.phone := "+91 90000 00002"; MockUsersPage.user_type := "TENANT";
     MockUsersPage.is_active := true |}.

(** Every request in the log was issued while the query was enabled, by
    [queryFn]. *)
Definition issued_by (auth : AuthState) (ls : LocalStorage) (q : UsersPage.Query) : Prop :=
  (∀ req, req ∈ UsersPage.issued q → UsersPage.enabled auth = true ∧ req = UsersPage.queryFn auth ls)
  ∧ (UsersPage.enabled auth = false → UsersPage.fetching q = false ∧ UsersPage.data q = None).

End UsersVocabulary.

(* ===================================================================== *)
(** ** Further parts of the code *)
(* ===================================================================== *)

(** *** Page loads *)

Module PageLoad.

(** A page load: a fresh [AuthProvider] mounts over the storage the last
    page left behind. *)
Definition reload (now : Z) (ls : LocalStorage) : LocalStorage * AuthState :=
  mount now ls AuthContext.initial.

(** The storage after a series of page loads, oldest first. *)
Definition reloads (times : list Z) (ls : LocalStorage) : LocalStorage :=
  fold_left (fun acc now => (reload now acc).1) times ls.

End PageLoad.

(** *** The countdown label of the login dialog *)

Module Display.

(** [s.padStart(2, "0")] *)
Definition padStart2 (s : string) : string :=
  match String.length s with
  | 0%nat => "00"
  | 1%nat => "0" +:+ s
  | _ => s
  end.

(** [formatTime]: [Math.floor] of the quotient, and the remainder [%]
    with the sign of the dividend. *)
Definition formatTime (seconds : Z) : string :=
  let mins := seconds / 60 in
  let secs := Z.rem seconds 60 in
  pretty mins +:+ ":" +:+ padStart2 (pretty secs).

(** The character of a decimal digit. *)
Definition digit_char (n : Z) : ascii := ascii_of_nat (48 + Z.to_nat n).

Fixpoint all_chars (p : ascii → bool) (s : string) : bool :=
  match s with
  | String c rest => p c && all_chars p rest
  | EmptyString => true
  end.

End Display.

(** *** The users page behind the layout *)

Module UsersGate.

(** What [UsersPage] returns. *)
Inductive UsersView :=
| Verifying
| AccessDenied
| UsersTable.

Definition UsersPage (auth : AuthState) : UsersView :=
  if AuthContext.isLoading auth then Verifying
  else if negb (isAuthenticated auth) || negb (isAdmin auth) then AccessDenied
  else UsersTable.

End UsersGate.

(** *** The other calls of the mock API layer *)

Module MockApi.

Import MockUsersPage.

(** [type CreateUserInput = Omit<User, "user_id">] *)
Record CreateUserInput := {
  new_society_id : string;
  new_full_name : string;
  new_email : string;
  new_phone : string;
  new_user_type : string;
  new_is_active : bool;
}.

(** [createUser]: the new [mockUsers] and the record returned; [fresh_id]
    is what [crypto.randomUUID()] (or the [Math.random] fallback) gave. *)
Definition createUser (data : CreateUserInput) (fresh_id : string)
           (store : list User) : list User * User :=
  let newUser :=
    {| society_id := new_society_id data; user_id := fresh_id;
       full_name := new_full_name data; email := new_email data;
       phone := new_phone data; user_type := new_user_type data;
       is_active := new_is_active data |} in
  (newUser :: store, newUser).

(** [type UpdateUserInput = Partial<Omit<User, "user_id">> & { user_id }];
    [None] is a key the object does not have. *)
Record UpdateUserInput := {
  upd_user_id : string;
  upd_society_id : option string;
  upd_full_name : option string;
  upd_email : option string;
  upd_phone : option string;
  upd_user_type : option string;
  upd_is_active : option bool;
}.

(** [{ ...u, ...data }] *)
Definition merged (u : User) (data : UpdateUserInput) : User :=
  {| society_id := default (society_id u) (upd_society_id data);
     user_id := upd_user_id data;
     full_name := default (full_name u) (upd_full_name data);
     email := default (email u) (upd_email data);
     phone := default (phone u) (upd_phone data);
     user_type := default (user_type u) (upd_user_type data);
     is_active := default (is_active u) (upd_is_active data) |}.

(** [updateUser]: the new [mockUsers] and the record returned, or the
    message of the error thrown. *)
Definition updateUser (data : UpdateUserInput) (store : list User)
  : string + (list User * User) :=
  match findIndex (upd_user_id data) store with
  | None => inl "User not found"
  | Some index =>
      match store !! index with
      | Some u => inr (<[index := merged u data]> store, merged u data)
      | None => inl "User not found"
      end
  end.

(** [updateUser({ user_id, ...values })], as the page calls it. *)
Definition full_update (id : string) (values : CreateUserInput) : UpdateUserInput :=
  {| upd_user_id := id;
     upd_society_id := Some (new_society_id values);
     upd_full_name := Some (new_full_name values);
     upd_email := Some (new_email values);
     upd_phone := Some (new_phone values);
     upd_user_type := Some (new_user_type values);
     upd_is_active := Some (new_is_active values) |}.

End MockApi.

(** *** The vocabulary of the further properties *)

Section FurtherVocabulary.

Import LoginDialog LoginFlow Display.

(** Every response in the log was built by the verify handler. *)
Definition built (a : AuthResponse) : Prop :=
  ∃ email0 data, a = build_auth_response email0 data.

(** A reply that verifies the code and carries a token. *)
Definition verified : FetchResult :=
  Responded true (JsonBody (JObj [("token", JStr "t0k3n")])).

(** The OTP field holds digits only, six at most. *)
Definition sanitised (s : string) : Prop :=
  all_chars Str.is_digit s = true ∧ (String.length s ≤ 6)%nat.

(** A number below 100 as two decimal digits. *)
Definition two_digits (k : Z) : string :=
  String (digit_char (k / 10)) (String (digit_char (k mod 10)) EmptyString).

(** The body of the latest request-otp request in the log. *)
Fixpoint last_send (log : list Request) : option JsVal :=
  match log with
  | [] => None
  | req :: older =>
      if String.eqb (url req) "http://localhost:8080/auth/request-otp"
      then Some (body req) else last_send older
  end.

(** On the OTP step, and while a send is in flight, the e-mail of the
    dialog is the one of the latest request-otp request. *)
Definition email_sent (m : Machine) : Prop :=
  step (dialog m) = StepOtp ∨ pending m = Some PendingSend →
  last_send (requests m) = Some (JObj [("email", JStr (email (dialog m)))]).

End FurtherVocabulary.

Section MockVocabulary.

Import MockUsersPage MockApi.

(** The update that only switches a user back on. *)
Definition reactivate (id : string) : UpdateUserInput :=
  {| upd_user_id := id; upd_society_id := None; upd_full_name := None;
     upd_email := None; upd_phone := None; upd_user_type := None;
     upd_is_active := Some true |}.

End MockVocabulary.

(* ===================================================================== *)
(** * Properties *)
(* ===================================================================== *)

(** ** The auth context *)

Section AuthFlags.

Lemma field_user_type_admin (u : JsVal) :
  is_str (opt_prop u "user_type") "ADMIN" = true
  ↔ u ≠ JNull ∧ field u "user_type" = JStr "ADMIN".
Proof.
  unfold opt_prop. split.
  - destruct u; simpl; try discriminate.
    + intros H. split; [discriminate |].
      destruct (assoc "user_type" props); simpl in H; try discriminate.
      apply String.eqb_eq in H. by subst.
  - intros [Hnull Hfield]. destruct u; simpl in *; try discriminate; try done.
    by rewrite Hfield.
Qed.

Lemma logout_clears (ls : LocalStorage) (s : AuthState) :
  user (logout ls s).2 = JNull ∧ token (logout ls s).2 = JNull
  ∧ (logout ls s).1 !! AUTH_STORAGE_KEY = None.
Proof. simpl. repeat split. apply lookup_delete_eq. Qed.

(** C7 (as amended).  [isAdmin] holds exactly when the user is non-null
    and its [user_type] is the string ADMIN.  [isAuthenticated] holds
    exactly when user and token are both truthy; for a user that is an
    object or null and a token that is a string or null this means: the
    user is non-null and the token is neither null nor the empty string.
    After [logout] user and token are null, the stored session is gone,
    and both flags are false. *)
Theorem auth_flags (s : AuthState) :
  (isAdmin s = true ↔ user s ≠ JNull ∧ field (user s) "user_type" = JStr "ADMIN")
  ∧ (isAuthenticated s = true ↔ truthy (user s) = true ∧ truthy (token s) = true)
  ∧ ((user s = JNull ∨ ∃ props, user s = JObj props) →
     (token s = JNull ∨ ∃ t, token s = JStr t) →
     (isAuthenticated s = true
      ↔ user s ≠ JNull ∧ token s ≠ JNull ∧ token s ≠ JStr EmptyString))
  ∧ (∀ ls : LocalStorage,
       user (logout ls s).2 = JNull ∧ token (logout ls s).2 = JNull
       ∧ (logout ls s).1 !! AUTH_STORAGE_KEY = None
       ∧ isAdmin (logout ls s).2 = false
       ∧ isAuthenticated (logout ls s).2 = false).
Proof.
  split; [apply field_user_type_admin |].
  split; [unfold isAuthenticated; apply andb_true_iff |].
  split.
  - intros Hu Ht. unfold isAuthenticated. rewrite andb_true_iff.
    destruct Hu as [-> | [props ->]], Ht as [-> | [t ->]]; simpl;
      try (split; [intros [? ?]; discriminate | intros (? & ? & ?); congruence]).
    destruct t as [| c t]; simpl.
    + split; [intros [? ?]; discriminate | intros (? & ? & ?); congruence].
    + split; [intros _; repeat split; discriminate | done].
  - intros ls. pose proof (logout_clears ls s) as (Hu & Ht & Hls).
    repeat split; try done.
Qed.

Lemma auth_flags_witness :
  let s := {| user := JObj [("user_type", JStr "ADMIN")];
              token := JStr "t0k3n"; isLoading := false |} in
  isAuthenticated s = true
  ↔ user s ≠ JNull ∧ token s ≠ JNull ∧ token s ≠ JStr EmptyString.
Proof.
  intros s.
  apply (auth_flags s); [right; by eexists | right; by eexists].
Defined.

End AuthFlags.

(** C7, the claim as stated, fails: a verified reply that carries no token
    logs in with the empty string as token; user and token are then both
    non-null, yet [isAuthenticated] is false. *)
Lemma auth_flags_counterexample :
  let r := LoginDialog.build_auth_response "admin@example.com" (JObj []) in
  let s := (login r 0 ∅ AuthContext.initial).2 in
  user s ≠ JNull ∧ token s ≠ JNull ∧ isAuthenticated s = false
  ∧ ¬ (isAuthenticated s = true ↔ user s ≠ JNull ∧ token s ≠ JNull).
Proof.
  simpl. repeat split; try discriminate.
  intros [_ H]. discriminate H. split; discriminate.
Qed.

(** ** Restoring the session on mount *)

Section SessionRestore.

(** 48 hours, in milliseconds. *)
Example EXPIRATION_MS_value : EXPIRATION_MS = 172800000.
Proof. reflexivity. Qed.

Lemma mount_fresh now (ls : LocalStorage) a :
  ls !! AUTH_STORAGE_KEY = Some (Json a) →
  now - timestamp a ≤ EXPIRATION_MS →
  mount now ls AuthContext.initial
  = (ls, {| user := stored_user a; token := stored_token a; isLoading := false |}).
Proof.
  intros Hls Hage. unfold mount, restore. rewrite Hls. simpl.
  destruct (Z.ltb_spec EXPIRATION_MS (now - timestamp a)); [lia | done].
Qed.

Lemma mount_expired now (ls : LocalStorage) a :
  ls !! AUTH_STORAGE_KEY = Some (Json a) →
  EXPIRATION_MS < now - timestamp a →
  mount now ls AuthContext.initial
  = (delete AUTH_STORAGE_KEY ls, {| user := JNull; token := JNull; isLoading := false |}).
Proof.
  intros Hls Hage. unfold mount, restore. rewrite Hls. simpl.
  destruct (Z.ltb_spec EXPIRATION_MS (now - timestamp a)); [done | lia].
Qed.








End SessionRestore.

(** ** Where the token is stored, and where the users page looks for it *)

Section TokenStorage.

Import UsersPage.

(** The provider touches one key only. *)
Lemma apply_other_keys (o : Op) (p : LocalStorage * AuthState) (k : string) :
  k ≠ AUTH_STORAGE_KEY → (apply_op o p).1 !! k = p.1 !! k.
Proof.
  intros Hk. destruct p as [ls s], o as [now | r now |]; simpl.
  - unfold mount, restore.
    destruct (ls !! AUTH_STORAGE_KEY) as [stored |] eqn:E; simpl; [| done].
    destruct (nonempty stored); simpl; [| done].
    destruct (JSON_parse stored) as [[| u t ts] |]; simpl.
    + by rewrite lookup_delete_ne.
    + destruct (expired now ts); simpl; [| done].
      by rewrite lookup_delete_ne.
    + by rewrite lookup_delete_ne.
  - by rewrite lookup_insert_ne.
  - by rewrite lookup_delete_ne.
Qed.

Lemma run_other_keys (ops : list Op) (p : LocalStorage * AuthState) (k : string) :
  k ≠ AUTH_STORAGE_KEY → (run ops p).1 !! k = p.1 !! k.
Proof.
  intros Hk. revert p. induction ops as [| o ops IH]; intros p; simpl; [done |].
  unfold run in IH. rewrite IH. by apply apply_other_keys.
Qed.

Lemma getHeaders_no_token (ls : LocalStorage) :
  ls !! "token" = None → ls !! "auth_token" = None →
  getHeaders ls = [("Content-Type", Literal "application/json")].
Proof. intros H1 H2. unfold getHeaders, getItem_or. by rewrite H1, H2. Qed.

(** C3.  Start from a storage in which the keys [token] and [auth_token]
    are unset (nothing in the application sets them) and let the provider
    run any history of mounts, logins and logouts, then log in.  The login
    puts the session, token included, under [lancorc_auth] and leaves every
    other key as it was; [getHeaders] then yields the content type alone,
    and none of the four users-API requests has an Authorization header. *)
Theorem users_requests_carry_no_token
        (ls0 : LocalStorage) (s0 : AuthState) (history : list Op)
        (r : AuthResponse) (now : Z)
        (Htoken : ls0 !! "token" = None)
        (Hauth_token : ls0 !! "auth_token" = None) :
  let ls := (run (history ++ [OpLogin r now]) (ls0, s0)).1 in
  ls !! AUTH_STORAGE_KEY
  = Some (Json {| stored_user := resp_user r; stored_token := resp_token r;
                  timestamp := now |})
  ∧ (∀ k, k ≠ AUTH_STORAGE_KEY → ls !! k = ls0 !! k)
  ∧ getHeaders ls = [("Content-Type", Literal "application/json")]
  ∧ (∀ societyId, has_authorization (fetchUsers societyId ls) = false)
  ∧ (∀ data, has_authorization (createUser data ls) = false)
  ∧ (∀ id data, has_authorization (updateUser id data ls) = false)
  ∧ (∀ id active, has_authorization (toggleUserStatus id active ls) = false).
Proof.
  intros ls.
  assert (Hkeys : ∀ k, k ≠ AUTH_STORAGE_KEY → ls !! k = ls0 !! k).
  { intros k Hk. subst ls. by rewrite run_other_keys. }
  assert (Hheaders : getHeaders ls = [("Content-Type", Literal "application/json")]).
  { apply getHeaders_no_token.
    - rewrite Hkeys; [done | discriminate].
    - rewrite Hkeys; [done | discriminate]. }
  split_and!; try done.
  - subst ls. unfold run. rewrite fold_left_app. simpl.
    apply lookup_insert_eq.
  - intros societyId. unfold has_authorization, fetchUsers. cbn [headers]. by rewrite Hheaders.
  - intros data. unfold has_authorization, createUser. cbn [headers]. by rewrite Hheaders.
  - intros id data. unfold has_authorization, updateUser. cbn [headers]. by rewrite Hheaders.
  - intros id active. unfold has_authorization, toggleUserStatus. cbn [headers]. by rewrite Hheaders.
Qed.

Lemma users_requests_carry_no_token_witness :
  let r := {| resp_token := JStr "t0k3n";
              resp_user := JObj [("user_type", JStr "ADMIN")] |} in
  let ls := (run ([OpMount 5] ++ [OpLogin r 10]) (∅, AuthContext.initial)).1 in
  getHeaders ls = [("Content-Type", Literal "application/json")].
Proof.
  intros r ls.
  apply (users_requests_carry_no_token ∅ AuthContext.initial [OpMount 5] r 10);
    apply lookup_empty.
Defined.

End TokenStorage.

(** ** What a verified reply logs in *)

Section VerifiedReply.

Import LoginDialog.

Lemma or_falsy (a b : JsVal) : truthy a = false → a ||| b = b.
Proof. unfold or_else. by intros ->. Qed.

Lemma coalesce_nullish (a b : JsVal) : nullish a = true → a ??? b = b.
Proof. unfold coalesce. by intros ->. Qed.

Lemma verification_passes (data : JsVal) :
  nullish data = false →
  is_false (field data "success") = false →
  is_false (field data "valid") = false →
  truthy (field data "error") = false →
  verification_failed true data = Some false.
Proof.
  intros Hobj Hs Hv He. unfold verification_failed, prop. simpl.
  by rewrite Hobj, Hs, Hv, He.
Qed.

(** C2 (as amended).  Let the verify-otp reply be successful: [res.ok],
    a body that is not [null], no [success: false], no [valid: false], no
    truthy [error].  If the body has no truthy [user], [userDto],
    [profile] or [data.user], no truthy [userType], [user_type] or [role],
    and neither [isActive] nor [is_active] (or these are null), then the
    handler calls [login] with the object literal as user, whose
    [user_type] is ADMIN and whose [is_active] is true, and asks for the
    dialog to be closed; after that login [isAdmin] is true, and
    [isAuthenticated] is true exactly when the reply carried a token. *)
Theorem verified_reply_defaults_to_admin
        (email0 : string) (attempts0 : Z) (data : JsVal) (s : State)
        (Hbody : nullish data = false)
        (Hsuccess : is_false (field data "success") = false)
        (Hvalid : is_false (field data "valid") = false)
        (Herror : truthy (field data "error") = false)
        (Huser : truthy (field data "user") = false)
        (HuserDto : truthy (field data "userDto") = false)
        (Hprofile : truthy (field data "profile") = false)
        (Hnested : truthy (opt_prop (field data "data") "user") = false)
        (HuserType : truthy (field data "userType") = false)
        (Huser_type : truthy (field data "user_type") = false)
        (Hrole : truthy (field data "role") = false)
        (HisActive : nullish (field data "isActive") = true)
        (His_active : nullish (field data "is_active") = true) :
  let o := on_verify_reply email0 attempts0 (Responded true (JsonBody data)) s in
  ∃ a, login_call o = Some a
       ∧ close_call o = true
       ∧ resp_user a = fallback_user email0 data
       ∧ field (resp_user a) "user_type" = JStr "ADMIN"
       ∧ field (resp_user a) "is_active" = JBool true
       ∧ ∀ now (ls : LocalStorage) auth,
           user (login a now ls auth).2 = resp_user a
           ∧ isAdmin (login a now ls auth).2 = true
           ∧ isAuthenticated (login a now ls auth).2 = truthy (resp_token a).
Proof.
  intros o. subst o. unfold on_verify_reply.
  rewrite (verification_passes data Hbody Hsuccess Hvalid Herror).
  assert (Hfallback :
    resp_user (build_auth_response email0 data) = fallback_user email0 data).
  { unfold build_auth_response. cbn [resp_user].
    rewrite (or_falsy (field data "user")) by done.
    rewrite (or_falsy (field data "userDto")) by done.
    rewrite (or_falsy (field data "profile")) by done.
    by rewrite or_falsy. }
  assert (Htype : field (fallback_user email0 data) "user_type" = JStr "ADMIN").
  { unfold fallback_user. cbn [field assoc String.eqb Ascii.eqb Bool.eqb].
    rewrite (or_falsy (field data "userType")) by done.
    rewrite (or_falsy (field data "user_type")) by done.
    by rewrite or_falsy. }
  assert (Hactive : field (fallback_user email0 data) "is_active" = JBool true).
  { unfold fallback_user. cbn [field assoc String.eqb Ascii.eqb Bool.eqb].
    rewrite (coalesce_nullish (field data "isActive")) by done.
    by rewrite coalesce_nullish. }
  exists (build_auth_response email0 data).
  split; [reflexivity |]. split; [reflexivity |].
  rewrite Hfallback. split_and!; try done.
  intros now ls auth.
  assert (Huser' : user (login (build_auth_response email0 data) now ls auth).2
                   = fallback_user email0 data) by (simpl; apply Hfallback).
  split_and!.
  - done.
  - unfold isAdmin. rewrite Huser'. unfold opt_prop.
    change (nullish (fallback_user email0 data)) with false. cbn iota.
    by rewrite Htype.
  - unfold isAuthenticated. rewrite Huser'. reflexivity.
Qed.

Lemma verified_reply_defaults_to_admin_witness :
  let o := on_verify_reply "admin@example.com" 0
             (Responded true (JsonBody (JObj [("token", JStr "t0k3n")])))
             LoginDialog.initial in
  ∃ a, login_call o = Some a
       ∧ close_call o = true
       ∧ resp_user a = fallback_user "admin@example.com" (JObj [("token", JStr "t0k3n")])
       ∧ field (resp_user a) "user_type" = JStr "ADMIN"
       ∧ field (resp_user a) "is_active" = JBool true
       ∧ ∀ now (ls : LocalStorage) auth,
           user (login a now ls auth).2 = resp_user a
           ∧ isAdmin (login a now ls auth).2 = true
           ∧ isAuthenticated (login a now ls auth).2 = truthy (resp_token a).
Proof.
  apply (verified_reply_defaults_to_admin "admin@example.com" 0
           (JObj [("token", JStr "t0k3n")]) LoginDialog.initial);
    reflexivity.
Defined.

(** C2, the claim as stated, fails: a successful reply with no user object
    and no role field, but with [isActive: false], logs in a user whose
    [is_active] is false. *)
Lemma verified_reply_counterexample :
  let data := JObj [("isActive", JBool false)] in
  let o := on_verify_reply "admin@example.com" 0
             (Responded true (JsonBody data)) LoginDialog.initial in
  verification_failed true data = Some false
  ∧ field data "user" = JUndefined
  ∧ field data "userType" = JUndefined
  ∧ field data "user_type" = JUndefined
  ∧ field data "role" = JUndefined
  ∧ (resp_user <$> login_call o)
    = Some (JObj [("user_id", JStr EmptyString);
                  ("society_id", JStr EmptyString);
                  ("full_name", JStr "admin");
                  ("email", JStr "admin@example.com");
                  ("phone", JStr EmptyString);
                  ("user_type", JStr "ADMIN");
                  ("is_active", JBool false)]).
Proof. repeat split. Qed.

End VerifiedReply.

(** ** The OTP step: attempts and expiry *)

Section OtpStep.

Import LoginDialog LoginFlow.

(** The timer effect touches the timer only. *)
Lemma timer_effect_shape (before after : State) :
  ∃ t, timer_effect before after = setTimer t after.
Proof.
  unfold timer_effect. case_decide.
  - exists (timer after). by destruct after.
  - destruct (step after); [by eexists |].
    destruct (otpSentTime after) as [sent |]; [| by eexists].
    destruct (sent =? 0); by eexists.
Qed.

Lemma timer_effect_frame (before after : State) :
  let d := timer_effect before after in
  step d = step after ∧ email d = email after ∧ otp d = otp after
  ∧ isLoading d = isLoading after ∧ error d = error after
  ∧ success d = success after ∧ attempts d = attempts after
  ∧ otpSentTime d = otpSentTime after ∧ timeLeft d = timeLeft after.
Proof. destruct (timer_effect_shape before after) as [t ->]. done. Qed.

Lemma timer_effect_attempts before after :
  attempts (timer_effect before after) = attempts after.
Proof. by destruct (timer_effect_frame before after) as (? & ? & ? & ? & ? & ? & ? & ? & ?). Qed.

Lemma timer_effect_isLoading before after :
  isLoading (timer_effect before after) = isLoading after.
Proof. by destruct (timer_effect_frame before after) as (? & ? & ? & ? & ? & ? & ? & ? & ?). Qed.

Lemma timer_effect_email before after :
  email (timer_effect before after) = email after.
Proof. by destruct (timer_effect_frame before after) as (? & ? & ? & ? & ? & ? & ? & ? & ?). Qed.

(** *** The handler *)

Lemma handleVerifyOtp_cases (d : State) :
  (valid_format (otp d) = false
   ∧ handleVerifyOtp d = (setError MSG_INVALID_FORMAT d, None))
  ∨ (valid_format (otp d) = true ∧ MAX_ATTEMPTS ≤ attempts d
     ∧ handleVerifyOtp d = (setError MSG_MAX_ATTEMPTS d, None))
  ∨ (valid_format (otp d) = true ∧ attempts d < MAX_ATTEMPTS
     ∧ ∃ req, handleVerifyOtp d = (setIsLoading true (setError EmptyString d), Some req)
              ∧ url req = "http://localhost:8080/auth/verify-otp"
              ∧ body req = JObj [("email", JStr (email d)); ("otp", JStr (otp d))]).
Proof.
  unfold handleVerifyOtp.
  destruct (valid_format (otp d)); simpl; [| by left].
  destruct (Z.leb_spec MAX_ATTEMPTS (attempts d)).
  - right; left. done.
  - right; right. split_and!; try done. by eexists.
Qed.

Lemma handleVerifyOtp_at_limit (d : State) :
  MAX_ATTEMPTS ≤ attempts d →
  handleVerifyOtp d
  = (setError (if valid_format (otp d) then MSG_MAX_ATTEMPTS
               else MSG_INVALID_FORMAT) d, None).
Proof.
  intros Hmax.
  destruct (handleVerifyOtp_cases d)
    as [(-> & E) | [(-> & _ & E) | (_ & Hlt & _)]]; try done. lia.
Qed.

(** *** The reply *)

Lemma failed_reply_counts (email0 : string) (attempts0 : Z) (ok : bool)
      (data : JsVal) (d : State) :
  verification_failed ok data = Some true →
  let o := on_verify_reply email0 attempts0 (Responded ok (JsonBody data)) d in
  attempts (next o) = attempts0 + 1
  ∧ isLoading (next o) = false
  ∧ login_call o = None ∧ close_call o = false
  ∧ (MAX_ATTEMPTS ≤ attempts0 + 1 → error (next o) = MSG_MAX_ATTEMPTS).
Proof.
  intros Hfailed. simpl. rewrite Hfailed.
  destruct (Z.ltb_spec 0 (MAX_ATTEMPTS - (attempts0 + 1))).
  - destruct (prop data "message"); simpl; split_and!; try done; lia.
  - simpl. done.
Qed.

Lemma on_verify_reply_attempts (email0 : string) (attempts0 : Z)
      (r : FetchResult) (d : State) :
  let o := on_verify_reply email0 attempts0 r d in
  (attempts (next o) = attempts d ∨ attempts (next o) = attempts0 + 1)
  ∧ (login_call o = None → isLoading (next o) = false)
  ∧ (close_call o = false → login_call o = None)
  ∧ email (next o) = email d.
Proof.
  destruct r as [ok [data | message] | message]; simpl; try (split_and!; by auto).
  destruct (verification_failed ok data) as [[|] |]; simpl; try (split_and!; by auto).
  destruct (0 <? MAX_ATTEMPTS - (attempts0 + 1)); simpl; try (split_and!; by auto).
  destruct (prop data "message"); simpl; split_and!; by auto.
Qed.

Lemma on_send_reply_attempts (r : FetchResult) (now : Z) (d : State) :
  let d' := on_send_reply r now d in
  (attempts d' = attempts d ∨ attempts d' = 0) ∧ isLoading d' = false.
Proof.
  destruct r as [[|] [data | message] | message]; simpl; try (split; by auto).
  destruct (prop data "message"); simpl; split; by auto.
Qed.

Lemma on_send_reply_frame (r : FetchResult) (now : Z) (d : State) :
  timer (on_send_reply r now d) = timer d ∨ timer (on_send_reply r now d) = None.
Proof.
  left. destruct r as [[|] [data | message] | message]; simpl; try done.
  by destruct (prop data "message").
Qed.

Lemma on_verify_reply_frame (email0 : string) (attempts0 : Z)
      (r : FetchResult) (d : State) :
  timer (next (on_verify_reply email0 attempts0 r d)) = timer d
  ∨ timer (next (on_verify_reply email0 attempts0 r d)) = None.
Proof.
  left. destruct r as [ok [data | message] | message]; simpl; try done.
  destruct (verification_failed ok data) as [[|] |]; simpl; try done.
  destruct (0 <? MAX_ATTEMPTS - (attempts0 + 1)); simpl; try done.
  by destruct (prop data "message").
Qed.

Lemma timer_effect_timer (before after : State) :
  (∀ sent, timer before = Some sent →
           otpSentTime before = Some sent ∧ step before = StepOtp) →
  (timer after = timer before ∨ timer after = None) →
  ∀ sent, timer (timer_effect before after) = Some sent →
          otpSentTime (timer_effect before after) = Some sent
          ∧ step (timer_effect before after) = StepOtp.
Proof.
  intros Hbefore Hkept sent. unfold timer_effect.
  case_decide as Hdeps.
  - destruct Hdeps as [Hstep Hsent]. intros Ht.
    destruct Hkept as [Hk | Hk]; rewrite Hk in Ht; [| discriminate].
    rewrite <- Hstep, <- Hsent. by apply Hbefore.
  - destruct (step after) eqn:Es, (otpSentTime after) as [t |] eqn:Et;
      simpl; try discriminate.
    destruct (t =? 0); simpl; [discriminate |].
    intros [= ->]. done.
Qed.

Lemma consistent_commit (m : Machine) (d1 : State) (o : bool)
      (p : option Pending) (rq : list Request) (lg : list AuthResponse) :
  consistent m →
  0 ≤ attempts d1 ≤ MAX_ATTEMPTS →
  (p ≠ None → isLoading d1 = true) →
  (∀ email0 attempts0, p = Some (PendingVerify email0 attempts0) →
     attempts0 = attempts d1 ∧ attempts0 < MAX_ATTEMPTS ∧ email0 = email d1) →
  (timer d1 = timer (dialog m) ∨ timer d1 = None) →
  consistent {| open := o; dialog := timer_effect (dialog m) d1;
                pending := p; requests := rq; logins := lg |}.
Proof.
  intros Hm Hbounds Hloading Hclosure Htimer.
  constructor; cbn [dialog pending].
  - by rewrite timer_effect_attempts.
  - rewrite timer_effect_isLoading. done.
  - rewrite timer_effect_attempts, timer_effect_email. done.
  - apply timer_effect_timer; [apply Hm | done].
Qed.

Lemma consistent_start : consistent start.
Proof.
  constructor; simpl; done.
Qed.

Lemma consistent_idle (m : Machine) :
  consistent m → isLoading (dialog m) = false → pending m = None.
Proof.
  intros Hm Hidle. destruct (pending m) eqn:E; [| done].
  rewrite (pending_loading m Hm) in Hidle; [discriminate | by rewrite E].
Qed.

Lemma consistent_close (m : Machine) :
  consistent m → pending m = None → consistent (close m).
Proof.
  intros Hm Hp. unfold close. rewrite Hp.
  apply consistent_commit; try done;
    try (simpl; unfold MAX_ATTEMPTS; lia); by right.
Qed.

Lemma consistent_fire (e : Event) (m : Machine) :
  consistent m → consistent (fire e m).
Proof.
  intros Hm. pose proof (attempts_bounds m Hm) as Hb.
  destruct e as [| | value | value | | | | now | r now |]; simpl.
  - (* OpenDialog *)
    destruct Hm as [H1 H2 H3 H4]. by constructor.
  - (* CloseDialog *)
    destruct (open m); simpl; [| done].
    destruct (isLoading (dialog m)) eqn:El; simpl; [done |].
    apply consistent_close; [done | by apply consistent_idle].
  - (* TypeEmail *)
    destruct (step (dialog m)); [| done].
    destruct (open m); simpl; [| done].
    destruct (isLoading (dialog m)) eqn:El; simpl; [done |].
    unfold commit. rewrite (consistent_idle m Hm El).
    apply consistent_commit; try done. by left.
  - (* TypeOtp *)
    destruct (step (dialog m)); [done |].
    destruct (open m); simpl; [| done].
    destruct (isLoading (dialog m)) eqn:El; simpl; [done |].
    unfold commit. rewrite (consistent_idle m Hm El).
    apply consistent_commit; try done. by left.
  - (* ClickSendOtp *)
    destruct (step (dialog m)); [| done].
    destruct (open m); simpl; [| done].
    destruct (isLoading (dialog m)) eqn:El; simpl; [done |].
    unfold issue, handleSendOtp.
    destruct (Str.empty (Str.trim (email (dialog m)))); simpl.
    + unfold commit. rewrite (consistent_idle m Hm El).
      apply consistent_commit; try done. by left.
    + apply consistent_commit; try done. by left.
  - (* ClickVerify *)
    destruct (step (dialog m)); [done |].
    destruct (open m); simpl; [| done].
    destruct (verify_disabled (dialog m)) eqn:Ev; simpl; [done |].
    assert (El : isLoading (dialog m) = false).
    { unfold verify_disabled in Ev. by destruct (isLoading (dialog m)). }
    unfold issue.
    destruct (handleVerifyOtp_cases (dialog m))
      as [(_ & E) | [(_ & _ & E) | (_ & Hlt & req & E & _)]]; rewrite E; simpl.
    + unfold commit. rewrite (consistent_idle m Hm El).
      apply consistent_commit; try done. by left.
    + unfold commit. rewrite (consistent_idle m Hm El).
      apply consistent_commit; try done. by left.
    + apply consistent_commit; try done; [| by left].
      intros email0 attempts0 [= <- <-]. done.
  - (* ClickResend *)
    destruct (step (dialog m)); [done |].
    destruct (open m); simpl; [| done].
    destruct (isLoading (dialog m)) eqn:El; simpl; [done |].
    unfold commit. rewrite (consistent_idle m Hm El).
    apply consistent_commit; try done;
      try (simpl; unfold MAX_ATTEMPTS; lia); by left.
  - (* Tick *)
    destruct (timer (dialog m)) as [sent |] eqn:Et; [| done].
    unfold commit.
    assert (Hframe : attempts (on_interval sent now (dialog m)) = attempts (dialog m)
                     ∧ isLoading (on_interval sent now (dialog m)) = isLoading (dialog m)
                     ∧ email (on_interval sent now (dialog m)) = email (dialog m)
                     ∧ (timer (on_interval sent now (dialog m)) = timer (dialog m)
                        ∨ timer (on_interval sent now (dialog m)) = None)).
    { unfold on_interval.
      destruct (OTP_EXPIRY_MINUTES * 60 - (now - sent) / 1000 <=? 0); simpl; auto. }
    destruct Hframe as (Ha & Hl & He & Ht).
    apply consistent_commit; try done.
    + by rewrite Ha.
    + rewrite Hl. apply Hm.
    + rewrite Ha, He. apply Hm.
  - (* Reply *)
    destruct (pending m) as [[| email0 attempts0] |] eqn:Ep; [| | done].
    + (* the send request settles *)
      unfold settle. cbn [close_call stay next login_call].
      destruct (on_send_reply_attempts r now (dialog m)) as (Ha & Hl).
      apply consistent_commit; try done.
      * destruct Ha as [-> | ->]; [done | unfold MAX_ATTEMPTS; lia].
      * apply on_send_reply_frame.
    + (* the verify request settles *)
      destruct (closure_current m Hm email0 attempts0 Ep) as (-> & Hlt & ->).
      set (o := on_verify_reply (email (dialog m)) (attempts (dialog m)) r (dialog m)).
      destruct (on_verify_reply_attempts (email (dialog m)) (attempts (dialog m))
                  r (dialog m)) as (Ha & Hl & Hc & He).
      fold o in Ha, Hl, Hc, He.
      assert (Hm1 : consistent
                {| open := open m; dialog := timer_effect (dialog m) (next o);
                   pending := None; requests := requests m;
                   logins := match login_call o with
                             | Some a => a :: logins m
                             | None => logins m
                             end |}).
      { apply consistent_commit; try done.
        - destruct Ha as [-> | ->]; [done | lia].
        - apply on_verify_reply_frame. }
      unfold settle. destruct (close_call o); [| done].
      by apply consistent_close.
  - (* Remount *)
    destruct (pending m); [done |]. by constructor.
Qed.

Lemma consistent_play (events : list Event) (m : Machine) :
  consistent m → consistent (play events m).
Proof.
  revert m. induction events as [| e events IH]; intros m Hm; simpl; [done |].
  apply IH. by apply consistent_fire.
Qed.

(** *** Requests *)

Lemma settle_requests (o : Outcome) (m : Machine) :
  requests (settle o m) = requests m.
Proof. unfold settle. by destruct (close_call o). Qed.

(** An event adds at most one request to the log, and only a click on one
    of the two submit buttons does. *)
Lemma fire_requests (e : Event) (m : Machine) :
  requests (fire e m) = requests m
  ∨ ∃ req, requests (fire e m) = req :: requests m
      ∧ ((e = ClickSendOtp ∧ url req = "http://localhost:8080/auth/request-otp")
         ∨ (e = ClickVerify ∧ url req = "http://localhost:8080/auth/verify-otp"
            ∧ attempts (dialog m) < MAX_ATTEMPTS
            ∧ valid_format (otp (dialog m)) = true
            ∧ body req = JObj [("email", JStr (email (dialog m)));
                               ("otp", JStr (otp (dialog m)))])).
Proof.
  destruct e as [| | value | value | | | | now | r now |]; simpl.
  - by left.
  - left. by destruct (open m && negb (isLoading (dialog m))).
  - left. destruct (step (dialog m)); [| done].
    by destruct (open m && negb (isLoading (dialog m))).
  - left. destruct (step (dialog m)); [done |].
    by destruct (open m && negb (isLoading (dialog m))).
  - destruct (step (dialog m)); [| by left].
    destruct (open m && negb (isLoading (dialog m))); [| by left].
    unfold issue, handleSendOtp.
    destruct (Str.empty (Str.trim (email (dialog m)))); simpl; [by left |].
    right. eexists. split; [reflexivity |]. left. done.
  - destruct (step (dialog m)); [by left |].
    destruct (open m && negb (verify_disabled (dialog m))); [| by left].
    unfold issue.
    destruct (handleVerifyOtp_cases (dialog m))
      as [(_ & E) | [(_ & _ & E) | (Hv & Hlt & req & E & Hurl & Hbody)]];
      rewrite E; simpl; [by left | by left |].
    right. exists req. split; [done |]. right. done.
  - left. destruct (step (dialog m)); [done |].
    by destruct (open m && negb (isLoading (dialog m))).
  - left. by destruct (timer (dialog m)).
  - left. destruct (pending m) as [[| email0 attempts0] |]; try done;
      apply settle_requests.
  - left. by destruct (pending m).
Qed.

Lemma timer_effect_error (before after : State) :
  error (timer_effect before after) = error after.
Proof. by destruct (timer_effect_frame before after) as (? & ? & ? & ? & ? & ? & ? & ? & ?). Qed.

Lemma timer_effect_same_deps (before after : State) :
  step before = step after → otpSentTime before = otpSentTime after →
  timer_effect before after = after.
Proof. intros H1 H2. unfold timer_effect. case_decide as H; [done |]. by destruct H. Qed.

(** C4 (as amended).  In every state the dialog can reach, [attempts]
    lies between 0 and [MAX_ATTEMPTS] (3).  A verify-otp request is
    issued only by a click on Verify made while [attempts < 3].  A reply
    to it whose body is JSON and which the handler classes as failed
    (status not ok, [success: false], [valid: false] or a truthy [error])
    raises [attempts] by exactly 1, issues nothing and logs nobody in,
    and shows the maximum-attempts message when it is the third.  A reply
    whose body is not JSON, whatever its status, and a fetch that is
    rejected leave [attempts] as it is.  Once [attempts] is 3 the Verify
    button is disabled and a click on it changes nothing, so no request
    goes out.  Resend OTP, and a successful send-OTP reply, set
    [attempts] to 0. *)
Theorem otp_attempt_limit (events : list Event) :
  let m := play events start in
  let d := dialog m in
  0 ≤ attempts d ≤ 3
  ∧ (∀ e req, requests (fire e m) = req :: requests m →
       url req = "http://localhost:8080/auth/verify-otp" →
       e = ClickVerify ∧ attempts d < 3)
  ∧ (∀ email0 attempts0 ok data now,
       pending m = Some (PendingVerify email0 attempts0) →
       verification_failed ok data = Some true →
       let m' := fire (Reply (Responded ok (JsonBody data)) now) m in
       attempts (dialog m') = attempts d + 1
       ∧ requests m' = requests m ∧ logins m' = logins m
       ∧ (attempts d + 1 = 3 → error (dialog m') = MSG_MAX_ATTEMPTS))
  ∧ (∀ email0 attempts0 r message now,
       pending m = Some (PendingVerify email0 attempts0) →
       (r = Rejected message ∨ ∃ ok, r = Responded ok (NotJson message)) →
       let m' := fire (Reply r now) m in
       attempts (dialog m') = attempts d
       ∧ error (dialog m') = message
       ∧ requests m' = requests m ∧ logins m' = logins m)
  ∧ (attempts d = 3 →
       verify_disabled d = true
       ∧ fire ClickVerify m = m)
  ∧ (open m = true → step d = StepOtp → isLoading d = false →
       attempts (dialog (fire ClickResend m)) = 0)
  ∧ (∀ payload now,
       pending m = Some PendingSend →
       attempts (dialog (fire (Reply (Responded true payload) now) m)) = 0).
Proof.
  intros m d.
  assert (Hm : consistent m) by (apply consistent_play, consistent_start).
  split_and!.
  - apply Hm.
  - apply Hm.
  - intros e req Hlog Hurl.
    destruct (fire_requests e m) as [Hsame | (req' & Hgrow & Hwho)].
    + rewrite Hsame in Hlog.
      exfalso. apply (f_equal length) in Hlog. simpl in Hlog. lia.
    + rewrite Hgrow in Hlog. injection Hlog as ->.
      destruct Hwho as [(_ & Hsend) | (-> & _ & Hlt & _)]; [| done].
      rewrite Hsend in Hurl. discriminate.
  - intros email0 attempts0 ok data now Hp Hfailed m'. subst m'.
    destruct (closure_current m Hm email0 attempts0 Hp) as (-> & Hlt & ->).
    cbn [fire]. rewrite Hp.
    destruct (failed_reply_counts (email (dialog m)) (attempts (dialog m))
                ok data (dialog m) Hfailed) as (Ha & _ & Hlogin & Hclose & Herr).
    unfold settle. rewrite Hclose, Hlogin. cbn [dialog requests logins].
    rewrite timer_effect_attempts, timer_effect_error.
    split_and!; try done.
    intros Hthird. apply Herr. fold d. unfold MAX_ATTEMPTS. lia.
  - intros email0 attempts0 r message now Hp Hr m'. subst m'.
    cbn [fire]. rewrite Hp.
    destruct Hr as [-> | [ok ->]]; unfold settle; simpl;
      by rewrite timer_effect_attempts, timer_effect_error.
  - intros Hmax. fold d.
    assert (Hdis : verify_disabled d = true).
    { unfold verify_disabled. rewrite Hmax. simpl. apply orb_true_r. }
    split; [done |].
    cbn [fire]. fold d. rewrite Hdis.
    destruct (step d); [done |]. by rewrite andb_false_r.
  - intros Hopen Hstep Hidle. cbn [fire]. fold d.
    rewrite Hstep, Hopen, Hidle. cbn [andb negb commit dialog].
    by rewrite timer_effect_attempts.
  - intros payload now Hp. cbn [fire]. rewrite Hp.
    unfold settle. cbn [stay close_call next dialog].
    by rewrite timer_effect_attempts.
Qed.

Lemma otp_attempt_limit_witness :
  let m := play three_failures start in
  attempts (dialog m) = 3
  ∧ error (dialog m) = MSG_MAX_ATTEMPTS
  ∧ LoginDialog.verify_disabled (dialog m) = true
  ∧ fire ClickVerify m = m.
Proof.
  intros m.
  destruct (otp_attempt_limit three_failures) as (_ & _ & _ & _ & Hlimit & _).
  split; [reflexivity |]. split; [reflexivity |].
  apply Hlimit. reflexivity.
Defined.

(** C4, the claim as stated, fails: the server turns a verification down
    with status not ok and a body that is not JSON.  Reading the body
    throws, the [catch] shows the error, and [attempts] stays at 0 instead
    of going to 1; the Verify button is enabled again, and the next click
    sends another request. *)
Lemma otp_attempt_limit_counterexample :
  let m := play (otp_sent ++ [TypeOtp "123456"; ClickVerify]) start in
  let m' := fire (Reply (Responded false
                           (NotJson "Unexpected token < in JSON at position 0"))
                        2000) m in
  pending m = Some (PendingVerify "admin@example.com" 0)
  ∧ attempts (dialog m) = 0
  ∧ attempts (dialog m') = 0
  ∧ error (dialog m') = "Unexpected token < in JSON at position 0"
  ∧ LoginDialog.verify_disabled (dialog m') = false
  ∧ length (requests (fire ClickVerify m')) = S (length (requests m')).
Proof. vm_compute. by split_and!. Qed.

(** *** Expiry *)

Lemma on_interval_expired (sent now : Z) (d : State) :
  10 * 60 * 1000 ≤ now - sent →
  on_interval sent now d
  = setTimeLeft (OTP_EXPIRY_MINUTES * 60 - (now - sent) / 1000)
      (setTimer None (setOtp EmptyString (setError MSG_EXPIRED d)))
  ∧ OTP_EXPIRY_MINUTES * 60 - (now - sent) / 1000 ≤ 0.
Proof.
  intros Hage. unfold on_interval, OTP_EXPIRY_MINUTES.
  assert (600 ≤ (now - sent) / 1000) by (apply Z.div_le_lower_bound; lia).
  destruct (Z.leb_spec (10 * 60 - (now - sent) / 1000) 0); [split; [done | lia] | lia].
Qed.

Lemma on_interval_running (sent now : Z) (d : State) :
  now - sent < 10 * 60 * 1000 →
  on_interval sent now d
  = setTimeLeft (OTP_EXPIRY_MINUTES * 60 - (now - sent) / 1000) d
  ∧ 0 < OTP_EXPIRY_MINUTES * 60 - (now - sent) / 1000.
Proof.
  intros Hage. unfold on_interval, OTP_EXPIRY_MINUTES.
  assert ((now - sent) / 1000 < 600) by (apply Z.div_lt_upper_bound; lia).
  destruct (Z.leb_spec (10 * 60 - (now - sent) / 1000) 0); [lia | split; [done | lia]].
Qed.

Lemma fire_tick (m : Machine) (sent now : Z) :
  timer (dialog m) = Some sent →
  fire (Tick now) m
  = {| open := open m; dialog := on_interval sent now (dialog m);
       pending := pending m; requests := requests m; logins := logins m |}.
Proof.
  intros Ht. cbn [fire]. rewrite Ht. unfold commit.
  rewrite timer_effect_same_deps; [done | |];
    unfold on_interval;
    by destruct (OTP_EXPIRY_MINUTES * 60 - (now - sent) / 1000 <=? 0).
Qed.

(** With the dialog idle on the OTP step and attempts left, typing a code
    that passes the format check and clicking Verify sends it. *)
Lemma type_and_verify (m : Machine) (code : string) :
  open m = true → step (dialog m) = StepOtp →
  isLoading (dialog m) = false → attempts (dialog m) < MAX_ATTEMPTS →
  valid_format (Str.take 6 (Str.digits_only code)) = true →
  requests (play [TypeOtp code; ClickVerify] m)
  = {| url := "http://localhost:8080/auth/verify-otp"; method := "POST";
       body := JObj [("email", JStr (email (dialog m)));
                     ("otp", JStr (Str.take 6 (Str.digits_only code)))] |}
    :: requests m.
Proof.
  intros Hopen Hstep Hidle Hlt Hvalid.
  assert (Hlen : (Str.len (Str.take 6 (Str.digits_only code)) =? 6) = true).
  { unfold valid_format in Hvalid. by apply andb_true_iff in Hvalid as [_ ?]. }
  assert (Hmax : (MAX_ATTEMPTS <=? attempts (dialog m)) = false)
    by (apply Z.leb_gt; done).
  assert (Etyped : fire (TypeOtp code) m
                   = {| open := open m; dialog := onOtpChange code (dialog m);
                        pending := pending m; requests := requests m;
                        logins := logins m |}).
  { cbn [fire]. rewrite Hstep, Hopen, Hidle. cbn [andb negb]. unfold commit.
    rewrite timer_effect_same_deps by done. by rewrite Hopen. }
  change (play [TypeOtp code; ClickVerify] m)
    with (fire ClickVerify (fire (TypeOtp code) m)).
  rewrite Etyped. cbn [fire dialog open].
  change (step (onOtpChange code (dialog m))) with (step (dialog m)).
  rewrite Hstep, Hopen.
  assert (Henabled : verify_disabled (onOtpChange code (dialog m)) = false).
  { unfold verify_disabled. cbn [isLoading otp attempts onOtpChange setOtp].
    by rewrite Hidle, Hlen, Hmax. }
  rewrite Henabled. cbn [andb negb].
  unfold issue, handleVerifyOtp. cbn [otp attempts email onOtpChange setOtp].
  by rewrite Hvalid, Hmax.
Qed.

(** C5 (as amended).  Take a reachable dialog whose countdown is running;
    it was started for the current [otpSentTime].  When the interval
    fires 10 minutes (600000 ms) or more after that time, the dialog shows
    the expiry message, the OTP field is cleared, the countdown is stopped
    (further ticks change nothing) with the time left at or below zero,
    and no request goes out; with the field empty the Verify button is
    disabled, a click on it does nothing, and the handler sends nothing.
    When the interval fires earlier, only the time left changes, and it
    stays positive.  Neither the button nor the handler looks at the
    time: once six digits are typed in again (dialog idle, attempts left)
    a click on Verify sends them. *)
Theorem otp_expiry (events : list Event) (sent now : Z)
        (Hrunning : timer (dialog (play events start)) = Some sent) :
  let m := play events start in
  let m' := fire (Tick now) m in
  otpSentTime (dialog m) = Some sent
  ∧ step (dialog m) = StepOtp
  ∧ (10 * 60 * 1000 ≤ now - sent →
       error (dialog m') = MSG_EXPIRED
       ∧ otp (dialog m') = EmptyString
       ∧ timer (dialog m') = None
       ∧ timeLeft (dialog m') ≤ 0
       ∧ requests m' = requests m
       ∧ (∀ later, fire (Tick later) m' = m')
       ∧ verify_disabled (dialog m') = true
       ∧ fire ClickVerify m' = m'
       ∧ (handleVerifyOtp (dialog m')).2 = None
       ∧ (∀ code,
            open m = true → isLoading (dialog m) = false →
            attempts (dialog m) < 3 →
            valid_format (Str.take 6 (Str.digits_only code)) = true →
            requests (play [TypeOtp code; ClickVerify] m')
            = {| url := "http://localhost:8080/auth/verify-otp"; method := "POST";
                 body := JObj [("email", JStr (email (dialog m)));
                               ("otp", JStr (Str.take 6 (Str.digits_only code)))] |}
              :: requests m))
  ∧ (now - sent < 10 * 60 * 1000 →
       dialog m' = setTimeLeft (10 * 60 - (now - sent) / 1000) (dialog m)
       ∧ 0 < timeLeft (dialog m')
       ∧ requests m' = requests m).
Proof.
  intros m m'.
  assert (Hm : consistent m) by (apply consistent_play, consistent_start).
  destruct (timer_current m Hm sent Hrunning) as (Hsent & Hstep).
  assert (Em' : m' = {| open := open m; dialog := on_interval sent now (dialog m);
                        pending := pending m; requests := requests m;
                        logins := logins m |})
    by (apply fire_tick; done).
  split_and!; try done.
  - intros Hage. destruct (on_interval_expired sent now (dialog m) Hage) as (E & Hleft).
    rewrite Em', E. cbn [dialog requests error otp timer timeLeft setTimeLeft setTimer
                          setOtp setError].
    assert (Hdis : ∀ d, otp d = EmptyString → verify_disabled d = true).
    { intros d Hd. unfold verify_disabled. rewrite Hd. simpl.
      by rewrite orb_true_r. }
    split_and!; try done.
    + by apply Hdis.
    + cbn [fire dialog step setTimeLeft setTimer setOtp setError].
      rewrite Hstep. rewrite Hdis by reflexivity. by rewrite andb_false_r.
    + intros code Hopen Hidle Hlt Hvalid.
      by rewrite type_and_verify.
  - intros Hage. destruct (on_interval_running sent now (dialog m) Hage) as (E & Hleft).
    rewrite Em', E. done.
Qed.

Lemma otp_expiry_witness :
  let m := play (otp_sent ++ [TypeOtp "123456"]) start in
  let m' := fire (Tick (1000 + 10 * 60 * 1000)) m in
  otp (dialog m) = "123456"
  ∧ error (dialog m') = MSG_EXPIRED
  ∧ otp (dialog m') = EmptyString
  ∧ fire ClickVerify m' = m'.
Proof.
  intros m m'.
  destruct (otp_expiry (otp_sent ++ [TypeOtp "123456"]) 1000
              (1000 + 10 * 60 * 1000) eq_refl) as (_ & _ & Hexpired & _).
  destruct Hexpired as (He & Ho & _ & _ & _ & _ & _ & Hclick & _ & _); [lia |].
  split; [reflexivity |]. done.
Defined.

(** C5, the claim as stated, fails: after the expiry message the same
    code can be typed in again and submitted; the verify request goes out
    although no new OTP was requested. *)
Lemma otp_expiry_counterexample :
  let expired := play (otp_sent ++ [TypeOtp "123456"; Tick (1000 + 10 * 60 * 1000)]) start in
  let m := play [TypeOtp "123456"; ClickVerify] expired in
  error (dialog expired) = MSG_EXPIRED
  ∧ otp (dialog expired) = EmptyString
  ∧ otpSentTime (dialog m) = Some 1000
  ∧ pending m = Some (PendingVerify "admin@example.com" 0)
  ∧ requests m
    = [ {| url := "http://localhost:8080/auth/verify-otp"; method := "POST";
           body := JObj [("email", JStr "admin@example.com");
                         ("otp", JStr "123456")] |};
        {| url := "http://localhost:8080/auth/request-otp"; method := "POST";
           body := JObj [("email", JStr "admin@example.com")] |} ].
Proof. vm_compute. by split_and!. Qed.

End OtpStep.

(** ** The gate of the root layout *)

Section LayoutGate.

Import Layout.

Context {C : Type}.

Lemma header_initial_text (u : JsVal) :
  name_is_text u ↔ ∃ initial, header_initial u = Some initial.
Proof.
  unfold name_is_text, header_initial. split.
  - intros [(s & ->) | [-> | ->]]; eauto.
  - intros (initial & H).
    destruct (opt_prop u "full_name"); try discriminate; eauto.
Qed.

Lemma header_initial_no_text (u : JsVal) :
  ¬ name_is_text u ↔ header_initial u = None.
Proof.
  rewrite header_initial_text. destruct (header_initial u) as [initial |].
  - split; [intros H; destruct H; eauto | discriminate].
  - split; [done | intros _ (initial & H); discriminate].
Qed.

(** What the shell shows, when it is built. *)
Lemma dashboard_shell_shows (u : JsVal) (children : C) (loginDialogOpen : bool) :
  (name_is_text u →
     shows is_shell (dashboard_shell u children loginDialogOpen) = true
     ∧ shows is_children (dashboard_shell u children loginDialogOpen) = true)
  ∧ (¬ name_is_text u →
     dashboard_shell u children loginDialogOpen = None).
Proof.
  unfold dashboard_shell. split.
  - intros (initial & ->)%header_initial_text. done.
  - intros ->%header_initial_no_text. done.
Qed.

Lemma dashboard_shell_children (u : JsVal) (children : C) (loginDialogOpen : bool) :
  shows is_children (dashboard_shell u children loginDialogOpen) = true
  ↔ name_is_text u.
Proof.
  split; [| by intros H; apply dashboard_shell_shows].
  intros Hshown. apply header_initial_text.
  unfold dashboard_shell in Hshown.
  destruct (header_initial u) as [initial |]; [eauto | discriminate].
Qed.

(** C1 (as amended).  Once the layout is mounted and the auth context has
    finished loading: if [isAuthenticated && isAdmin] does not hold, the
    render is the restricted screen (lock icon, heading, notice, the Login
    to Continue button, the login dialog) and holds no widget of the
    sidebar/header shell and no page children, and [DashboardPage] returns
    null.  If both flags hold and the user's [full_name] is a string or
    absent, the render is the shell around the routed children; if both
    hold and [full_name] is anything else, the render throws and shows
    nothing.  So the shell is on screen exactly when both flags hold and
    [full_name] is a string or absent, and so are the children; the
    overview of [DashboardPage] is returned exactly when both flags
    hold. *)
Theorem layout_gate (mounted loginDialogOpen : bool) (auth : AuthState)
        (children : C)
        (Hmounted : mounted = true) (Hloaded : isLoading auth = false) :
  let view := DashboardLayoutContent mounted loginDialogOpen auth children in
  let admitted := isAuthenticated auth && isAdmin auth in
  (admitted = false →
     view = Some [LockIcon; RestrictedHeading; RestrictedNotice; LoginButton;
                  LoginDialogW loginDialogOpen]
     ∧ shows is_shell view = false
     ∧ shows is_children view = false
     ∧ DashboardPage mounted auth = PageNull)
  ∧ (admitted = true → name_is_text (user auth) →
     ∃ initial,
       header_initial (user auth) = Some initial
       ∧ view = Some [Sidebar sidebarItems; SidebarLogout;
                      HeaderBar (opt_prop (user auth) "full_name") initial;
                      HeaderLogout;
                      PageChildren children;
                      LoginDialogW loginDialogOpen])
  ∧ (admitted = true → ¬ name_is_text (user auth) → view = None)
  ∧ (shows is_shell view = true ↔ admitted = true ∧ name_is_text (user auth))
  ∧ (shows is_children view = true ↔ admitted = true ∧ name_is_text (user auth))
  ∧ (DashboardPage mounted auth = PageOverview ↔ admitted = true).
Proof.
  intros view admitted. subst view admitted.
  unfold DashboardLayoutContent, DashboardPage. rewrite Hmounted, Hloaded.
  destruct (dashboard_shell_shows (user auth) children loginDialogOpen)
    as (Htext & Hthrows).
  assert (Hdenied : ∀ P : Prop, false = true ↔ false = true ∧ P)
    by (intros P; split; [discriminate | by intros [? _]]).
  destruct (isAuthenticated auth), (isAdmin auth); simpl;
    try (split_and!; [done | discriminate | discriminate | apply Hdenied
                      | apply Hdenied | split; discriminate]).
  split_and!.
  - done.
  - intros _ (initial & Hinitial)%header_initial_text.
    exists initial. split; [done |]. unfold dashboard_shell. by rewrite Hinitial.
  - intros _. apply Hthrows.
  - split.
    + intros Hshown. split; [done |].
      destruct (header_initial (user auth)) as [initial |] eqn:E.
      * apply header_initial_text. eauto.
      * unfold dashboard_shell in Hshown. rewrite E in Hshown. discriminate.
    + intros [_ H]. by apply Htext.
  - split.
    + intros Hshown. split; [done |].
      destruct (header_initial (user auth)) as [initial |] eqn:E.
      * apply header_initial_text. eauto.
      * unfold dashboard_shell in Hshown. rewrite E in Hshown. discriminate.
    + intros [_ H]. by apply Htext.
  - done.
Qed.

End LayoutGate.

Lemma layout_gate_witness :
  let auth := {| user := JObj [("user_type", JStr "ADMIN");
                               ("full_name", JStr "asha")];
                 token := JStr "t0k3n"; isLoading := false |} in
  Layout.shows Layout.is_children
    (Layout.DashboardLayoutContent true false auth "users page") = true
  ∧ Layout.shows Layout.is_children
      (Layout.DashboardLayoutContent true false (AuthContext.logout ∅ auth).2
         "users page") = false.
Proof.
  intros auth. split.
  - destruct (layout_gate true false auth "users page" eq_refl eq_refl)
      as (_ & _ & _ & _ & Hchildren & _).
    apply Hchildren. split; [reflexivity |]. left. by exists "asha".
  - destruct (layout_gate true false (AuthContext.logout ∅ auth).2 "users page"
                eq_refl eq_refl) as (Hdenied & _).
    destruct Hdenied as (_ & _ & Hnone & _); [reflexivity | exact Hnone].
Defined.

(** C1, the claim as stated, fails.  The verify-otp endpoint answers the
    dialog with a token and the number 123 as name; the dialog builds an
    ADMIN user with that name and logs in.  Both flags then hold, yet the
    layout shows neither shell nor children: building the header badge
    calls [charAt] on the number and the render throws. *)
Lemma layout_gate_counterexample :
  let body := JObj [("token", JStr "t0k3n"); ("name", JNum (123 ↾ eq_refl))] in
  let events : list LoginFlow.Event :=
    (otp_sent ++ [LoginFlow.TypeOtp "123456"; LoginFlow.ClickVerify;
                  LoginFlow.Reply (LoginDialog.Responded true
                                     (LoginDialog.JsonBody body)) 2000])%list in
  let a := LoginDialog.build_auth_response "admin@example.com" body in
  let auth := (login a 2000 ∅ (AuthContext.setIsLoading false AuthContext.initial)).2 in
  LoginFlow.logins (LoginFlow.play events LoginFlow.start) = [a]
  ∧ AuthContext.isLoading auth = false
  ∧ isAuthenticated auth && isAdmin auth = true
  ∧ opt_prop (user auth) "full_name" = JNum (123 ↾ eq_refl)
  ∧ Layout.DashboardLayoutContent true false auth "users page" = None
  ∧ Layout.shows Layout.is_shell
      (Layout.DashboardLayoutContent true false auth "users page") = false
  ∧ Layout.shows Layout.is_children
      (Layout.DashboardLayoutContent true false auth "users page") = false.
Proof. vm_compute. by split_and!. Qed.

(** ** Search and filter on the users page *)

Section SearchFilter.

Lemma startsWith_spec (s t : string) :
  Str.startsWith s t = true ↔ ∃ post, s = t +:+ post.
Proof.
  revert s. induction t as [| b t IH]; intros s.
  - destruct s; simpl; split; eauto.
  - destruct s as [| a s]; simpl.
    + split; [discriminate | intros [post H]; discriminate].
    + rewrite andb_true_iff, Ascii.eqb_eq, IH. split.
      * intros [-> [post ->]]. by exists post.
      * intros [post [= -> ->]]. split; [done | by exists post].
Qed.

Lemma includes_spec (s t : string) :
  Str.includes s t = true ↔ ∃ pre post, s = pre +:+ t +:+ post.
Proof.
  induction s as [| a s IH]; cbn [Str.includes]; rewrite orb_true_iff, startsWith_spec.
  - split.
    + intros [[post H] | H]; [| discriminate]. by exists EmptyString, post.
    + intros (pre & post & H). left. destruct pre; [| discriminate]. by exists post.
  - rewrite IH. split.
    + intros [[post H] | (pre & post & ->)].
      * by exists EmptyString, post.
      * by exists (String a pre), post.
    + intros (pre & post & H). destruct pre as [| a' pre]; simpl in H.
      * left. by exists post.
      * right. injection H as -> ->. by exists pre, post.
Qed.

Lemma empty_spec (s : string) : Str.empty s = true ↔ s = EmptyString.
Proof. unfold Str.empty. apply String.eqb_eq. Qed.

Lemma toLowerCase_empty (s : string) :
  Str.toLowerCase s = EmptyString ↔ s = EmptyString.
Proof. destruct s; simpl; split; done. Qed.

Lemma live_matches_spec (term filter : string) (u : UsersPage.User) :
  UsersPage.matches term filter u = true
  ↔ shown (UsersPage.display_name u) (UsersPage.display_email u)
          (UsersPage.user_type u) term filter.
Proof.
  unfold UsersPage.matches, shown, contains_ci.
  rewrite andb_true_iff, !orb_true_iff, !includes_spec, empty_spec, !String.eqb_eq.
  intuition auto.
Qed.

Lemma mock_matches_spec (term filter : string) (u : MockUsersPage.User) :
  MockUsersPage.matches term filter u = true
  ↔ shown (MockUsersPage.full_name u) (MockUsersPage.email u)
          (MockUsersPage.user_type u) (Str.trim term) filter.
Proof.
  unfold MockUsersPage.matches, shown, contains_ci.
  rewrite andb_true_iff, !orb_true_iff, !includes_spec, empty_spec,
    toLowerCase_empty, !String.eqb_eq.
  intuition auto.
Qed.

(** A filter keeps exactly the elements its test accepts, in order. *)
Lemma filter_exactly {A} (test : A → bool) (P : A → Prop) (l : list A) :
  (∀ x, test x = true ↔ P x) →
  (∀ x, x ∈ List.filter test l ↔ x ∈ l ∧ P x)
  ∧ sublist (List.filter test l) l
  ∧ (∀ x rest, P x → List.filter test (x :: rest) = x :: List.filter test rest)
  ∧ (∀ x rest, ¬ P x → List.filter test (x :: rest) = List.filter test rest)
  ∧ ((∀ x, x ∈ l → P x) → List.filter test l = l).
Proof.
  intros Htest. split_and!.
  - intros x. rewrite !list_elem_of_In, filter_In, Htest. done.
  - induction l as [| x l IH]; simpl; [constructor |].
    destruct (test x); by constructor.
  - intros x rest HP. simpl. apply Htest in HP. by rewrite HP.
  - intros x rest HP. simpl. destruct (test x) eqn:E; [| done].
    exfalso. by apply HP, Htest.
  - induction l as [| x l IH]; intros Hall; simpl; [done |].
    assert (test x = true) as -> by (apply Htest, Hall; left).
    f_equal. apply IH. intros y Hy. apply Hall. by right.
Qed.

(** C8 (as amended).  On the live page, for every fetched list, search
    term and type filter, [filteredUsers] holds exactly the users for
    which (the term is empty, or the name shown or the e-mail contains the
    term, letter case set aside) and (the filter is ALL or equals the
    user's type), in the order of the fetched list; with an empty term and
    the filter ALL it is the fetched list.  On the page over the mock API
    the same holds for the search term with the white space at its ends
    trimmed off. *)
Theorem filtered_users_exactly (term filter : string) :
  (∀ fetched : list UsersPage.User,
     let P u := shown (UsersPage.display_name u) (UsersPage.display_email u)
                      (UsersPage.user_type u) term filter in
     let result := UsersPage.filteredUsers fetched term filter in
     (∀ u, u ∈ result ↔ u ∈ fetched ∧ P u)
     ∧ sublist result fetched
     ∧ (∀ u rest, P u → UsersPage.filteredUsers (u :: rest) term filter
                        = u :: UsersPage.filteredUsers rest term filter)
     ∧ (∀ u rest, ¬ P u → UsersPage.filteredUsers (u :: rest) term filter
                          = UsersPage.filteredUsers rest term filter)
     ∧ UsersPage.filteredUsers fetched EmptyString "ALL" = fetched)
  ∧ (∀ fetched : list MockUsersPage.User,
     let P u := shown (MockUsersPage.full_name u) (MockUsersPage.email u)
                      (MockUsersPage.user_type u) (Str.trim term) filter in
     let result := MockUsersPage.filteredUsers fetched term filter in
     (∀ u, u ∈ result ↔ u ∈ fetched ∧ P u)
     ∧ sublist result fetched
     ∧ (∀ u rest, P u → MockUsersPage.filteredUsers (u :: rest) term filter
                        = u :: MockUsersPage.filteredUsers rest term filter)
     ∧ (∀ u rest, ¬ P u → MockUsersPage.filteredUsers (u :: rest) term filter
                          = MockUsersPage.filteredUsers rest term filter)
     ∧ MockUsersPage.filteredUsers fetched EmptyString "ALL" = fetched).
Proof.
  split.
  - intros fetched P result. subst P result. unfold UsersPage.filteredUsers.
    destruct (filter_exactly (UsersPage.matches term filter) _ fetched
                (live_matches_spec term filter)) as (H1 & H2 & H3 & H4 & _).
    split_and!; try done.
    apply (filter_exactly _ _ fetched (live_matches_spec EmptyString "ALL")).
    intros u _. split; by left.
  - intros fetched P result. subst P result. unfold MockUsersPage.filteredUsers.
    destruct (filter_exactly (MockUsersPage.matches term filter) _ fetched
                (mock_matches_spec term filter)) as (H1 & H2 & H3 & H4 & _).
    split_and!; try done.
    apply (filter_exactly _ _ fetched (mock_matches_spec EmptyString "ALL")).
    intros u _. split; by left.
Qed.

Lemma filtered_users_exactly_witness :
  MockUsersPage.filteredUsers (bob :: MockUsersPage.mockUsers) " MEENA " "OWNER"
  = MockUsersPage.filteredUsers MockUsersPage.mockUsers " MEENA " "OWNER".
Proof.
  destruct (filtered_users_exactly " MEENA " "OWNER") as (_ & Hmock).
  destruct (Hmock []) as (_ & _ & _ & Hskip & _).
  apply Hskip. intros (_ & [H | H]); discriminate.
Defined.

(** C8, the claim as stated, fails on the page over the mock API: the
    term made of one space is not empty and occurs neither in the name nor
    in the e-mail of this user, yet the user is listed. *)
Lemma filtered_users_counterexample :
  MockUsersPage.filteredUsers [bob] " " "ALL" = [bob]
  ∧ ¬ shown (MockUsersPage.full_name bob) (MockUsersPage.email bob)
            (MockUsersPage.user_type bob) " " "ALL".
Proof.
  split; [reflexivity |].
  intros ([H | [H | H]] & _).
  - discriminate.
  - by apply includes_spec in H.
  - by apply includes_spec in H.
Qed.

End SearchFilter.

(** ** The users-list query *)

Section UsersQuery.

Import UsersPage.

Lemma issued_by_idle auth (ls : LocalStorage) : issued_by auth ls idle.
Proof. split; [intros req H; by apply elem_of_nil in H | done]. Qed.

Lemma issued_by_step auth (ls : LocalStorage) (e : QueryEvent) (q : Query) :
  issued_by auth ls q → issued_by auth ls (on_query auth ls e q).
Proof.
  intros Hq.
  assert (Hre : issued_by auth ls (refetch auth ls q)).
  { unfold refetch. destruct (enabled auth) eqn:En; simpl; [| done].
    destruct (fetching q); simpl; [done |].
    destruct Hq as [Hlog _]. split; [| by rewrite En].
    intros req [-> | Hin]%elem_of_cons; [done | by apply Hlog]. }
  destruct e as [| | result]; simpl; try done.
  destruct (fetching q) eqn:Ef; [| done].
  destruct Hq as [Hlog Hoff]. split; [done |]. simpl.
  intros En. destruct (Hoff En) as [Hf _]. congruence.
Qed.

Lemma issued_by_run auth (ls : LocalStorage) (events : list QueryEvent) (q : Query) :
  issued_by auth ls q → issued_by auth ls (run_query auth ls events q).
Proof.
  revert q. induction events as [| e events IH]; intros q Hq; simpl; [done |].
  apply IH. by apply issued_by_step.
Qed.

Lemma disabled_never_fetches auth (ls : LocalStorage) (events : list QueryEvent) :
  enabled auth = false →
  run_query auth ls events idle = idle.
Proof.
  intros En. induction events as [| e events IH] using rev_ind; [done |].
  unfold run_query in *. rewrite fold_left_app, IH. simpl.
  destruct e; simpl; try done; unfold refetch; by rewrite En.
Qed.

(** C9.  Every users-list request the page issues is issued while the
    logged-in user has a truthy (for a string: non-empty) [society_id]
    and [isAuthenticated] holds, and its URL is the API base followed by
    [?societyId=] and that [society_id]; it carries no body.  When the
    [society_id] is missing or empty, or the user is not authenticated,
    nothing is fetched, whatever happens, and the list stays empty. *)
Theorem users_query_gate (auth : AuthState) (ls : LocalStorage)
        (events : list QueryEvent) :
  let q := run_query auth ls events idle in
  let society := opt_prop (user auth) "society_id" in
  (∀ req, req ∈ issued q →
     truthy society = true
     ∧ isAuthenticated auth = true
     ∧ method req = "GET"
     ∧ url req = "http://localhost:8080/api/admin/users?societyId=" +:+ to_string society
     ∧ (∀ id, society = JStr id →
          id ≠ EmptyString
          ∧ url req = "http://localhost:8080/api/admin/users?societyId=" +:+ id))
  ∧ (truthy society = false ∨ isAuthenticated auth = false →
       issued q = [] ∧ fetching q = false ∧ users q = []).
Proof.
  intros q society. split.
  - intros req Hreq.
    destruct (issued_by_run auth ls events idle (issued_by_idle auth ls)) as [Hlog _].
    destruct (Hlog req Hreq) as [En ->].
    unfold enabled in En. apply andb_true_iff in En as [Hsoc Hauth].
    fold society in Hsoc.
    assert (Hurl : url (queryFn auth ls)
                   = "http://localhost:8080/api/admin/users?societyId="
                     +:+ to_string society).
    { unfold queryFn, fetchUsers. cbn [url]. fold society.
      unfold or_else. by rewrite Hsoc. }
    split_and!; try done.
    intros id Hid. rewrite Hurl, Hid. split; [| done].
    intros ->. rewrite Hid in Hsoc. discriminate.
  - intros Hoff.
    assert (En : enabled auth = false).
    { unfold enabled. fold society.
      destruct Hoff as [-> | ->]; [done | apply andb_false_r]. }
    subst q. by rewrite disabled_never_fetches.
Qed.

Lemma users_query_gate_witness :
  let auth := {| user := JObj [("society_id", JStr EmptyString);
                               ("user_type", JStr "ADMIN")];
                 token := JStr "t0k3n"; isLoading := false |} in
  let q := run_query auth ∅ [Mounted; Invalidated; Settled (Some [])] idle in
  issued q = [] ∧ fetching q = false ∧ users q = [].
Proof.
  intros auth q.
  apply (users_query_gate auth ∅ [Mounted; Invalidated; Settled (Some [])]).
  left. reflexivity.
Defined.

End UsersQuery.

(** ** Soft delete *)

Section SoftDelete.

Lemma findIndex_spec (id : string) (store : list MockUsersPage.User) :
  match MockUsersPage.findIndex id store with
  | Some i =>
      ∃ u, store !! i = Some u ∧ MockUsersPage.user_id u = id
           ∧ ∀ j v, (j < i)%nat → store !! j = Some v → MockUsersPage.user_id v ≠ id
  | None => ∀ u, u ∈ store → MockUsersPage.user_id u ≠ id
  end.
Proof.
  induction store as [| u store IH]; simpl.
  - intros u H. by apply elem_of_nil in H.
  - destruct (String.eqb_spec (MockUsersPage.user_id u) id) as [E | E].
    + exists u. split_and!; [done | done |]. intros j v Hj. lia.
    + destruct (MockUsersPage.findIndex id store) as [i |]; simpl.
      * destruct IH as (v & Hv & Hid & Hfirst). exists v. split_and!; [done | done |].
        intros [| j] w Hj Hw; simpl in Hw.
        -- by injection Hw as <-.
        -- apply (Hfirst j w); [lia | done].
      * intros v [-> | Hin]%elem_of_cons; [done | by apply IH].
Qed.

(** C10.  In the mock API layer [softDeleteUser] finds the first record
    with the given id and replaces it, at its place, by a copy whose
    [is_active] is false and whose [user_id], [society_id], [full_name],
    [email], [phone] and [user_type] are unchanged; the list keeps its
    length and every other record; with no such record it throws and the
    list is as before.  On the live page the Delete button of a row is
    disabled exactly when the row's [is_active] is false, and a click on
    an enabled one sends the status toggle with [active=false] for that
    user. *)
Theorem soft_delete_deactivates :
  (∀ (id : string) (store : list MockUsersPage.User),
     match MockUsersPage.softDeleteUser id store with
     | inr (store', returned) =>
         ∃ i u,
           store !! i = Some u
           ∧ MockUsersPage.user_id u = id
           ∧ (∀ j v, (j < i)%nat → store !! j = Some v → MockUsersPage.user_id v ≠ id)
           ∧ store' !! i = Some returned
           ∧ MockUsersPage.is_active returned = false
           ∧ MockUsersPage.user_id returned = MockUsersPage.user_id u
           ∧ MockUsersPage.society_id returned = MockUsersPage.society_id u
           ∧ MockUsersPage.full_name returned = MockUsersPage.full_name u
           ∧ MockUsersPage.email returned = MockUsersPage.email u
           ∧ MockUsersPage.phone returned = MockUsersPage.phone u
           ∧ MockUsersPage.user_type returned = MockUsersPage.user_type u
           ∧ length store' = length store
           ∧ (∀ j, j ≠ i → store' !! j = store !! j)
     | inl message =>
         message = "User not found"
         ∧ ∀ u, u ∈ store → MockUsersPage.user_id u ≠ id
     end)
  ∧ (∀ (u : UsersPage.User) (ls : LocalStorage),
       UsersPage.delete_disabled u = negb (UsersPage.is_active u)
       ∧ (UsersPage.is_active u = false → UsersPage.click_delete u ls = None)
       ∧ (UsersPage.is_active u = true →
            ∃ req, UsersPage.click_delete u ls = Some req
                   ∧ UsersPage.method req = "PATCH"
                   ∧ UsersPage.url req
                     = "http://localhost:8080/api/admin/users/"
                       +:+ UsersPage.user_id u +:+ "/status?active=false"
                   ∧ UsersPage.body req = None)).
Proof.
  split.
  - intros id store. unfold MockUsersPage.softDeleteUser.
    pose proof (findIndex_spec id store) as Hfind.
    destruct (MockUsersPage.findIndex id store) as [i |]; [| done].
    destruct Hfind as (u & Hu & Hid & Hfirst). rewrite Hu.
    exists i, u. split_and!; try done.
    + apply list_lookup_insert_eq. by eapply lookup_lt_Some.
    + apply length_insert.
    + intros j Hj. by apply list_lookup_insert_ne.
  - intros u ls. unfold UsersPage.click_delete, UsersPage.delete_disabled.
    split_and!; [done | by intros -> |].
    intros ->. simpl. eexists. by split_and!.
Qed.

Lemma soft_delete_deactivates_witness :
  ∃ req, UsersPage.click_delete
           {| UsersPage.society_id := "11111111-1111-1111-1111-111111111111";
              UsersPage.user_id := "bbbbbbbb-bbbb-bbbb-bbbb-bbbbbbbbbbbb";
              UsersPage.full_name := Some "Meena Owner";
              UsersPage.fullName := None;
              UsersPage.email := Some "meena.owner@example.com";
              UsersPage.phone := "+91 90000 00001";
              UsersPage.user_type := "OWNER";
              UsersPage.is_active := true |} ∅ = Some req
         ∧ UsersPage.method req = "PATCH"
         ∧ UsersPage.url req
           = "http://localhost:8080/api/admin/users/"
             +:+ "bbbbbbbb-bbbb-bbbb-bbbb-bbbbbbbbbbbb" +:+ "/status?active=false"
         ∧ UsersPage.body req = None.
Proof.
  destruct soft_delete_deactivates as (_ & Hlive).
  apply Hlive. reflexivity.
Defined.

(** The second mock user, soft-deleted. *)
Example soft_delete_meena :
  MockUsersPage.softDeleteUser "bbbbbbbb-bbbb-bbbb-bbbb-bbbbbbbbbbbb"
    MockUsersPage.mockUsers
  = inr (<[1%nat := MockUsersPage.deactivated
                      {| MockUsersPage.society_id := "11111111-1111-1111-1111-111111111111";
                         MockUsersPage.user_id := "bbbbbbbb-bbbb-bbbb-bbbb-bbbbbbbbbbbb";
                         MockUsersPage.full_name := "Meena Owner";
                         MockUsersPage.email := "meena.owner@example.com";
                         MockUsersPage.phone := "+91 90000 00001";
                         MockUsersPage.user_type := "OWNER";
                         MockUsersPage.is_active := true |}]>
           MockUsersPage.mockUsers,
         {| MockUsersPage.society_id := "11111111-1111-1111-1111-111111111111";
            MockUsersPage.user_id := "bbbbbbbb-bbbb-bbbb-bbbb-bbbbbbbbbbbb";
            MockUsersPage.full_name := "Meena Owner";
            MockUsersPage.email := "meena.owner@example.com";
            MockUsersPage.phone := "+91 90000 00001";
            MockUsersPage.user_type := "OWNER";
            MockUsersPage.is_active := false |}).
Proof. reflexivity. Qed.

End SoftDelete.

(* ===================================================================== *)
(** * Further properties *)
(* ===================================================================== *)

(** ** The session across page loads *)

Section Reloads.

Import PageLoad.

Lemma reload_no_entry (now : Z) (ls : LocalStorage) :
  ls !! AUTH_STORAGE_KEY = None →
  reload now ls = (ls, {| user := JNull; token := JNull; isLoading := false |}).
Proof. intros H. unfold reload, mount, restore. by rewrite H. Qed.

Lemma reloads_no_entry (times : list Z) (ls : LocalStorage) :
  ls !! AUTH_STORAGE_KEY = None → reloads times ls = ls.
Proof.
  intros H. induction times as [| t times IH] using rev_ind; [done |].
  unfold reloads in *. rewrite fold_left_app, IH. simpl.
  by rewrite reload_no_entry.
Qed.

Lemma reloads_fresh (times : list Z) (ls : LocalStorage) (a : StoredAuth) :
  ls !! AUTH_STORAGE_KEY = Some (Json a) →
  Forall (fun now => now - timestamp a ≤ EXPIRATION_MS) times →
  reloads times ls = ls.
Proof.
  intros Hls Hall. induction Hall as [| t times Ht Hall IH]; [done |].
  unfold reloads in *. simpl. unfold reload at 2.
  by rewrite (mount_fresh t ls a Hls Ht).
Qed.

(** X1.  A login survives page loads for 48 hours counted from the login:
    after [login] at time [t0], any series of page loads at times no
    later than [t0] + 48 h leaves the storage as the login wrote it, and a
    page load at such a time restores exactly the user and the token that
    were logged in.  Visits do not extend the window. *)
Theorem session_survives_reloads
        (r : AuthResponse) (t0 : Z) (ls : LocalStorage) (s : AuthState)
        (times : list Z) (now : Z)
        (Hearlier : Forall (fun t => t - t0 ≤ 48 * 60 * 60 * 1000) times)
        (Hnow : now - t0 ≤ 48 * 60 * 60 * 1000) :
  let stored := (login r t0 ls s).1 in
  reloads times stored = stored
  ∧ reload now (reloads times stored)
    = (stored, {| user := resp_user r; token := resp_token r; isLoading := false |}).
Proof.
  intros stored.
  set (a := {| stored_user := resp_user r; stored_token := resp_token r;
               timestamp := t0 |}).
  assert (Hstored : stored !! AUTH_STORAGE_KEY = Some (Json a))
    by apply lookup_insert_eq.
  assert (Hsame : reloads times stored = stored)
    by (by apply (reloads_fresh times stored a)).
  split; [done |]. rewrite Hsame. unfold reload.
  by rewrite (mount_fresh now stored a Hstored).
Qed.

Lemma session_survives_reloads_witness :
  let r := {| resp_token := JStr "t0k3n";
              resp_user := JObj [("user_type", JStr "ADMIN")] |} in
  let stored := (login r 1000 ∅ AuthContext.initial).1 in
  reload (1000 + 48 * 60 * 60 * 1000) (reloads [2000; 90000000] stored)
  = (stored, {| user := resp_user r; token := resp_token r; isLoading := false |}).
Proof.
  intros r stored.
  apply (session_survives_reloads r 1000 ∅ AuthContext.initial [2000; 90000000]).
  - repeat constructor; lia.
  - lia.
Defined.

(** X2.  Expiry is final.  A page load later than 48 hours after the
    login, whatever loads came before it, removes the stored session and
    starts logged out; from then on every page load, at whatever time the
    clock shows, starts logged out and leaves the storage alone. *)
Theorem session_expiry_is_final
        (r : AuthResponse) (t0 : Z) (ls : LocalStorage) (s : AuthState)
        (times : list Z) (now : Z) (later : list Z) (again : Z)
        (Hearlier : Forall (fun t => t - t0 ≤ 48 * 60 * 60 * 1000) times)
        (Hnow : 48 * 60 * 60 * 1000 < now - t0) :
  let stored := (login r t0 ls s).1 in
  let expired := reload now (reloads times stored) in
  expired = (delete AUTH_STORAGE_KEY stored,
             {| user := JNull; token := JNull; isLoading := false |})
  ∧ reloads later expired.1 = expired.1
  ∧ reload again (reloads later expired.1)
    = (expired.1, {| user := JNull; token := JNull; isLoading := false |}).
Proof.
  intros stored expired.
  set (a := {| stored_user := resp_user r; stored_token := resp_token r;
               timestamp := t0 |}).
  assert (Hstored : stored !! AUTH_STORAGE_KEY = Some (Json a))
    by apply lookup_insert_eq.
  assert (Hexpired : expired = (delete AUTH_STORAGE_KEY stored,
             {| user := JNull; token := JNull; isLoading := false |})).
  { subst expired. rewrite (reloads_fresh times stored a Hstored Hearlier).
    unfold reload. by rewrite (mount_expired now stored a Hstored). }
  assert (Hgone : expired.1 !! AUTH_STORAGE_KEY = None).
  { rewrite Hexpired. apply lookup_delete_eq. }
  split_and!; [done | by apply reloads_no_entry |].
  rewrite reloads_no_entry by done. by apply reload_no_entry.
Qed.

Lemma session_expiry_is_final_witness :
  let r := {| resp_token := JStr "t0k3n";
              resp_user := JObj [("user_type", JStr "ADMIN")] |} in
  let stored := (login r 1000 ∅ AuthContext.initial).1 in
  reload (1001 + 48 * 60 * 60 * 1000) (reloads [2000] stored)
  = (delete AUTH_STORAGE_KEY stored,
     {| user := JNull; token := JNull; isLoading := false |}).
Proof.
  intros r stored.
  apply (session_expiry_is_final r 1000 ∅ AuthContext.initial [2000]
           (1001 + 48 * 60 * 60 * 1000) [] 0).
  - repeat constructor; lia.
  - lia.
Defined.

(** X3.  Logging out is final as well: after [logout], from any state and
    over any storage, every later page load starts with user and token
    null, and no page load brings the session back. *)
Theorem logout_survives_reloads
        (ls : LocalStorage) (s : AuthState) (times : list Z) (now : Z) :
  let left := (logout ls s).1 in
  left = delete AUTH_STORAGE_KEY ls
  ∧ reloads times left = left
  ∧ reload now (reloads times left)
    = (left, {| user := JNull; token := JNull; isLoading := false |})
  ∧ isAuthenticated (reload now (reloads times left)).2 = false
  ∧ isAdmin (reload now (reloads times left)).2 = false.
Proof.
  intros left.
  assert (Hgone : left !! AUTH_STORAGE_KEY = None) by apply lookup_delete_eq.
  rewrite (reloads_no_entry times left Hgone), (reload_no_entry now left Hgone).
  done.
Qed.

End Reloads.

(** ** What the dialog hands to [login] *)

Section LoginCalls.

Import LoginDialog LoginFlow.

Lemma or_else_truthy_r (a b : JsVal) : truthy b = true → truthy (a ||| b) = true.
Proof. intros Hb. unfold or_else. by destruct (truthy a) eqn:E. Qed.

Lemma or_else_truthy_or_empty (a b : JsVal) :
  truthy b = true ∨ b = JStr EmptyString →
  truthy (a ||| b) = true ∨ a ||| b = JStr EmptyString.
Proof. intros Hb. unfold or_else. destruct (truthy a) eqn:E; [by left | done]. Qed.

Lemma built_response_shape (email0 : string) (data : JsVal) :
  let a := build_auth_response email0 data in
  truthy (resp_user a) = true
  ∧ (truthy (resp_token a) = true ∨ resp_token a = JStr EmptyString).
Proof.
  split.
  - by apply or_else_truthy_r.
  - apply or_else_truthy_or_empty. by right.
Qed.

(** A call to [login] is made with a response built from the reply. *)
Lemma login_call_built (email0 : string) (attempts0 : Z) (r : FetchResult)
      (d : State) (a : AuthResponse) :
  login_call (on_verify_reply email0 attempts0 r d) = Some a →
  ∃ ok data, r = Responded ok (JsonBody data)
             ∧ verification_failed ok data = Some false
             ∧ a = build_auth_response email0 data.
Proof.
  destruct r as [ok [data | message] | message]; simpl; try discriminate.
  destruct (verification_failed ok data) as [[|] |] eqn:E; simpl; try discriminate.
  - destruct (0 <? MAX_ATTEMPTS - (attempts0 + 1)); simpl; try discriminate.
    destruct (prop data "message"); discriminate.
  - intros [= <-]. by exists ok, data.
Qed.

Lemma settle_logins (o : Outcome) (m : Machine) :
  logins (settle o m)
  = match login_call o with
    | Some a => a :: logins m
    | None => logins m
    end.
Proof. unfold settle. by destruct (close_call o). Qed.

Lemma fire_logins (e : Event) (m : Machine) :
  Forall built (logins m) → Forall built (logins (fire e m)).
Proof.
  intros Hm.
  destruct e as [| | value | value | | | | now | r now |]; simpl; try done.
  - by destruct (open m && negb (isLoading (dialog m))).
  - destruct (step (dialog m)); [| done].
    by destruct (open m && negb (isLoading (dialog m))).
  - destruct (step (dialog m)); [done |].
    by destruct (open m && negb (isLoading (dialog m))).
  - destruct (step (dialog m)); [| done].
    destruct (open m && negb (isLoading (dialog m))); [| done].
    unfold issue. by destruct (handleSendOtp (dialog m)).2.
  - destruct (step (dialog m)); [done |].
    destruct (open m && negb (verify_disabled (dialog m))); [| done].
    unfold issue. by destruct (handleVerifyOtp (dialog m)).2.
  - destruct (step (dialog m)); [done |].
    by destruct (open m && negb (isLoading (dialog m))).
  - by destruct (timer (dialog m)).
  - destruct (pending m) as [[| email0 attempts0] |]; [| | done];
      rewrite settle_logins; [done |].
    destruct (login_call _) as [a |] eqn:E; [| done].
    constructor; [| done].
    apply login_call_built in E as (ok & data & _ & _ & ->). by exists email0, data.
  - by destruct (pending m).
Qed.

Lemma play_logins (events : list Event) (m : Machine) :
  Forall built (logins m) → Forall built (logins (play events m)).
Proof.
  revert m. induction events as [| e events IH]; intros m Hm; simpl; [done |].
  apply IH. by apply fire_logins.
Qed.

(** X4.  Whatever happens at the dialog, every response it passes to
    [login] has a truthy user (an object: the one in the reply, or the
    fallback literal), never null; its token is truthy or else the empty
    string.  So after such a login the user is non-null, and
    [isAuthenticated] holds exactly when the token is truthy. *)
Theorem dialog_logins_have_user (events : list Event) (a : AuthResponse) :
  a ∈ logins (play events start) →
  truthy (resp_user a) = true
  ∧ resp_user a ≠ JNull ∧ resp_user a ≠ JUndefined
  ∧ (truthy (resp_token a) = true ∨ resp_token a = JStr EmptyString)
  ∧ ∀ now (ls : LocalStorage) auth,
      user (login a now ls auth).2 = resp_user a
      ∧ isAuthenticated (login a now ls auth).2 = truthy (resp_token a).
Proof.
  intros Hin.
  assert (Hall : Forall built (logins (play events start)))
    by (apply play_logins; constructor).
  rewrite Forall_forall in Hall. destruct (Hall a Hin) as (email0 & data & ->).
  destruct (built_response_shape email0 data) as (Hu & Ht).
  split_and!; try done.
  - intros E. rewrite E in Hu. discriminate.
  - intros E. rewrite E in Hu. discriminate.
  - intros now ls auth. split; [done |].
    unfold isAuthenticated.
    cbn [login snd user token setToken setUser]. by rewrite Hu.
Qed.

Lemma dialog_logins_have_user_witness :
  let events : list Event :=
    (otp_sent ++ [TypeOtp "123456"; ClickVerify; Reply verified 2000])%list in
  logins (play events start)
  = [build_auth_response "admin@example.com" (JObj [("token", JStr "t0k3n")])]
  ∧ truthy (resp_user (build_auth_response "admin@example.com"
                         (JObj [("token", JStr "t0k3n")]))) = true.
Proof.
  intros events.
  assert (Elog : logins (play events start)
                 = [build_auth_response "admin@example.com"
                      (JObj [("token", JStr "t0k3n")])]) by (vm_compute; reflexivity).
  split; [exact Elog |].
  assert (Hin : build_auth_response "admin@example.com" (JObj [("token", JStr "t0k3n")])
                ∈ logins (play events start)) by (rewrite Elog; left).
  destruct (dialog_logins_have_user events _ Hin) as (Htruthy & _).
  exact Htruthy.
Defined.

(** X5.  What the layout does after a login made by the dialog, once the
    provider has finished loading: when the response carries a truthy
    token and its user's [user_type] is ADMIN it builds the dashboard
    shell, otherwise the restricted screen stays.  The page is on screen
    exactly when token and type are so and the user's [full_name] is a
    string or absent; with any other [full_name] the shell's header throws
    and nothing is shown.  In particular a verified reply without a token,
    or for a user of another type, does not open the dashboard. *)
Theorem layout_after_login {C : Type} (events : list Event) (a : AuthResponse)
        (now : Z) (ls : LocalStorage) (auth : AuthState)
        (loginDialogOpen : bool) (children : C) :
  a ∈ logins (play events start) →
  AuthContext.isLoading auth = false →
  let auth' := (login a now ls auth).2 in
  let admitted := truthy (resp_token a)
                  && is_str (field (resp_user a) "user_type") "ADMIN" in
  let view := Layout.DashboardLayoutContent true loginDialogOpen auth' children in
  view = (if admitted
          then Layout.dashboard_shell (resp_user a) children loginDialogOpen
          else Some (Layout.restricted_screen loginDialogOpen))
  ∧ (Layout.shows Layout.is_children view = true
     ↔ admitted = true ∧ name_is_text (resp_user a))
  ∧ (admitted = true → ¬ name_is_text (resp_user a) → view = None)
  ∧ UsersGate.UsersPage auth'
    = (if admitted then UsersGate.UsersTable else UsersGate.AccessDenied).
Proof.
  intros Hin Hloaded auth' admitted view. subst view.
  assert (Hall : Forall built (logins (play events start)))
    by (apply play_logins; constructor).
  rewrite Forall_forall in Hall. destruct (Hall a Hin) as (email0 & data & ->).
  destruct (built_response_shape email0 data) as (Hu & _).
  set (b := build_auth_response email0 data) in *. clearbody b.
  pose proof (dashboard_shell_children (resp_user b) children loginDialogOpen)
    as Hchildren.
  pose proof (dashboard_shell_shows (resp_user b) children loginDialogOpen)
    as (_ & Hthrows).
  assert (Hauth : isAuthenticated auth' = truthy (resp_token b)).
  { unfold isAuthenticated. subst auth'.
    cbn [login snd user token setToken setUser]. by rewrite Hu. }
  assert (Hadmin : isAdmin auth' = is_str (field (resp_user b) "user_type") "ADMIN").
  { unfold isAdmin, opt_prop. subst auth'.
    cbn [login snd user token setToken setUser].
    destruct (resp_user b); try discriminate; done. }
  unfold Layout.DashboardLayoutContent, UsersGate.UsersPage.
  assert (Hl : AuthContext.isLoading auth' = false) by (subst auth'; done).
  rewrite Hl, Hauth, Hadmin. subst admitted.
  assert (Huser : user auth' = resp_user b) by (subst auth'; done).
  rewrite Huser.
  destruct (truthy (resp_token b)),
    (is_str (field (resp_user b) "user_type") "ADMIN"); simpl;
    try (split_and!; [done | split; [discriminate | by intros [? _]]
                      | discriminate | done]).
  split_and!; [done | | by intros _ | done].
  rewrite Hchildren. split; [done | by intros [_ ?]].
Qed.

Lemma layout_after_login_witness :
  let events : list Event :=
    (otp_sent ++ [TypeOtp "123456"; ClickVerify; Reply verified 2000])%list in
  let a := build_auth_response "admin@example.com" (JObj [("token", JStr "t0k3n")]) in
  Layout.shows Layout.is_children
    (Layout.DashboardLayoutContent true false
       (login a 3000 ∅ (AuthContext.setIsLoading false AuthContext.initial)).2
       "users page") = true.
Proof.
  intros events a.
  assert (Hin : a ∈ logins (play events start)).
  { assert (Elog : logins (play events start) = [a]) by (vm_compute; reflexivity).
    rewrite Elog. left. }
  destruct (layout_after_login events a 3000 ∅
              (AuthContext.setIsLoading false AuthContext.initial)
              false "users page" Hin eq_refl) as (_ & Hshown & _).
  apply Hshown. split; [reflexivity |]. left. by exists "admin".
Defined.

End LoginCalls.

(** ** The dialog while a request is in flight, and after it settles *)

Section DialogFlow.

Import LoginDialog LoginFlow.

Lemma timer_effect_step (before after : State) :
  step (timer_effect before after) = step after.
Proof. by destruct (timer_effect_frame before after) as (? & ? & ? & ? & ? & ? & ? & ? & ?). Qed.

Lemma timer_effect_otp (before after : State) :
  otp (timer_effect before after) = otp after.
Proof. by destruct (timer_effect_frame before after) as (? & ? & ? & ? & ? & ? & ? & ? & ?). Qed.

Lemma reachable_consistent (events : list Event) : consistent (play events start).
Proof. apply consistent_play, consistent_start. Qed.

(** With the dialog loading, the controls are dead. *)
Lemma fire_while_loading (e : Event) (m : Machine) :
  isLoading (dialog m) = true →
  match e with
  | OpenDialog | Tick _ =>
      requests (fire e m) = requests m ∧ pending (fire e m) = pending m
  | Reply _ _ => requests (fire e m) = requests m
  | Remount => pending m ≠ None → fire e m = m
  | _ => fire e m = m
  end.
Proof.
  intros Hl.
  assert (Hv : verify_disabled (dialog m) = true)
    by (unfold verify_disabled; by rewrite Hl).
  destruct e as [| | value | value | | | | now | r now |]; cbn [fire];
    rewrite ?Hl, ?Hv, ?andb_false_r; try done.
  - by destruct (step (dialog m)).
  - by destruct (step (dialog m)).
  - by destruct (step (dialog m)).
  - by destruct (step (dialog m)).
  - by destruct (step (dialog m)).
  - by destruct (timer (dialog m)).
  - destruct (pending m) as [[| email0 attempts0] |]; try done;
      apply settle_requests.
  - by destruct (pending m).
Qed.

(** X6.  One request at a time.  While a request is in flight the dialog
    is loading, and no event issues another request; apart from the reply
    itself no event changes the request in flight, and a click on Send
    OTP, Verify, Resend OTP or on the close control, and typing in either
    field, leave the dialog exactly as it is. *)
Theorem one_request_at_a_time (events : list Event) (e : Event) :
  let m := play events start in
  pending m ≠ None →
  isLoading (dialog m) = true
  ∧ requests (fire e m) = requests m
  ∧ ((∀ r now, e ≠ Reply r now) → pending (fire e m) = pending m)
  ∧ ((∀ r now, e ≠ Reply r now) → (∀ now, e ≠ Tick now) → e ≠ OpenDialog →
       fire e m = m).
Proof.
  intros m Hp.
  pose proof (reachable_consistent events) as Hm. fold m in Hm.
  assert (Hl : isLoading (dialog m) = true) by (by apply Hm).
  pose proof (fire_while_loading e m Hl) as He.
  split_and!; [done | | |].
  - destruct e; try (by rewrite He); by destruct He.
  - intros Hr. destruct e as [| | | | | | | | r now |];
      try (by rewrite He); try (by destruct He).
    by destruct (Hr r now).
  - intros Hr Ht Ho. destruct e as [| | | | | | | now | r now |]; try done.
    + by destruct (Ht now).
    + by destruct (Hr r now).
    + by apply He.
Qed.

Lemma one_request_at_a_time_witness :
  let m := play (otp_sent ++ [TypeOtp "123456"; ClickVerify]) start in
  pending m = Some (PendingVerify "admin@example.com" 0)
  ∧ fire ClickVerify m = m.
Proof.
  intros m. split; [reflexivity |].
  destruct (one_request_at_a_time
              (otp_sent ++ [TypeOtp "123456"; ClickVerify]) ClickVerify)
    as (_ & _ & _ & Hdead); [discriminate |].
  apply Hdead; discriminate.
Defined.

End DialogFlow.

(** ** The OTP field *)

Section OtpField.

Import LoginDialog LoginFlow Display.

Lemma digit_not_space (c : ascii) : Str.is_digit c = true → Str.is_space c = false.
Proof.
  unfold Str.is_digit, Str.is_space. generalize (nat_of_ascii c). intros n H.
  apply andb_true_iff in H as [H1 H2].
  apply Nat.leb_le in H1. apply Nat.leb_le in H2.
  destruct (Nat.leb_spec 9 n), (Nat.leb_spec n 13), (Nat.eqb_spec n 32),
    (Nat.eqb_spec n 160); simpl; try reflexivity; lia.
Qed.

Lemma digits_only_digits (s : string) :
  all_chars Str.is_digit (Str.digits_only s) = true.
Proof.
  induction s as [| c s IH]; simpl; [done |].
  destruct (Str.is_digit c) eqn:E; simpl; [by rewrite E |  done].
Qed.

Lemma take_all_chars (p : ascii → bool) (n : nat) (s : string) :
  all_chars p s = true → all_chars p (Str.take n s) = true.
Proof.
  revert s. induction n as [| n IH]; intros [| c s]; simpl; try done.
  intros [Hc Hs]%andb_true_iff. rewrite Hc. by apply IH.
Qed.

Lemma take_length (n : nat) (s : string) :
  (String.length (Str.take n s) ≤ n)%nat.
Proof.
  revert s. induction n as [| n IH]; intros [| c s]; simpl; try lia.
  specialize (IH s). lia.
Qed.

Lemma trimEnd_no_space (s : string) :
  all_chars (fun c => negb (Str.is_space c)) s = true → Str.trimEnd s = s.
Proof.
  induction s as [| c s IH]; simpl; [done |].
  intros [Hc Hs]%andb_true_iff. rewrite (IH Hs).
  destruct s; [| done]. apply negb_true_iff in Hc. by rewrite Hc.
Qed.

Lemma trim_digits (s : string) :
  all_chars Str.is_digit s = true → Str.trim s = s.
Proof.
  intros H.
  assert (Hns : all_chars (fun c => negb (Str.is_space c)) s = true).
  { induction s as [| c s IH]; simpl in *; [done |].
    apply andb_true_iff in H as [Hc Hs].
    rewrite (digit_not_space c Hc). simpl. by apply IH. }
  unfold Str.trim.
  assert (Hstart : Str.trimStart s = s).
  { destruct s as [| c s]; simpl in *; [done |].
    apply andb_true_iff in Hns as [Hc _]. apply negb_true_iff in Hc. by rewrite Hc. }
  rewrite Hstart. by apply trimEnd_no_space.
Qed.

Lemma sanitised_input (value : string) :
  sanitised (Str.take 6 (Str.digits_only value)).
Proof.
  split; [apply take_all_chars, digits_only_digits | apply take_length].
Qed.

Lemma sanitised_empty : sanitised EmptyString.
Proof. split; simpl; [done | lia]. Qed.

Lemma on_send_reply_otp (r : FetchResult) (now : Z) (d : State) :
  otp (on_send_reply r now d) = otp d.
Proof.
  destruct r as [[|] [data | message] | message]; simpl; try done.
  by destruct (prop data "message").
Qed.

Lemma on_verify_reply_otp (email0 : string) (attempts0 : Z)
      (r : FetchResult) (d : State) :
  otp (next (on_verify_reply email0 attempts0 r d)) = otp d.
Proof.
  destruct r as [ok [data | message] | message]; simpl; try done.
  destruct (verification_failed ok data) as [[|] |]; simpl; try done.
  destruct (0 <? MAX_ATTEMPTS - (attempts0 + 1)); simpl; try done.
  by destruct (prop data "message").
Qed.

Lemma close_otp (m : Machine) : otp (dialog (close m)) = EmptyString.
Proof. unfold close. cbn [dialog]. by rewrite timer_effect_otp. Qed.

Lemma fire_sanitised (e : Event) (m : Machine) :
  sanitised (otp (dialog m)) → sanitised (otp (dialog (fire e m))).
Proof.
  intros Hm.
  destruct e as [| | value | value | | | | now | r now |]; cbn [fire]; try done.
  - destruct (open m && negb (isLoading (dialog m))); [| done].
    rewrite close_otp. apply sanitised_empty.
  - destruct (step (dialog m)); [| done].
    destruct (open m && negb (isLoading (dialog m))); [| done].
    unfold commit. cbn [dialog]. by rewrite timer_effect_otp.
  - destruct (step (dialog m)); [done |].
    destruct (open m && negb (isLoading (dialog m))); [| done].
    unfold commit. cbn [dialog]. rewrite timer_effect_otp.
    apply sanitised_input.
  - destruct (step (dialog m)); [| done].
    destruct (open m && negb (isLoading (dialog m))); [| done].
    unfold issue, commit, handleSendOtp.
    destruct (Str.empty (Str.trim (email (dialog m)))); cbn [fst snd dialog];
      by rewrite timer_effect_otp.
  - destruct (step (dialog m)); [done |].
    destruct (open m && negb (verify_disabled (dialog m))); [| done].
    unfold issue, commit.
    destruct (handleVerifyOtp_cases (dialog m))
      as [(_ & E) | [(_ & _ & E) | (_ & _ & req & E & _)]]; rewrite E;
      cbn [fst snd dialog]; by rewrite timer_effect_otp.
  - destruct (step (dialog m)); [done |].
    destruct (open m && negb (isLoading (dialog m))); [| done].
    unfold commit. cbn [dialog]. rewrite timer_effect_otp.
    apply sanitised_empty.
  - destruct (timer (dialog m)) as [sent |]; [| done].
    unfold commit. cbn [dialog]. rewrite timer_effect_otp. unfold on_interval.
    destruct (OTP_EXPIRY_MINUTES * 60 - (now - sent) / 1000 <=? 0);
      [apply sanitised_empty | done].
  - destruct (pending m) as [[| email0 attempts0] |]; [| | done]; unfold settle.
    + cbn [close_call stay next dialog]. by rewrite timer_effect_otp, on_send_reply_otp.
    + destruct (close_call _).
      * rewrite close_otp. apply sanitised_empty.
      * cbn [dialog]. by rewrite timer_effect_otp, on_verify_reply_otp.
  - destruct (pending m); [done | apply sanitised_empty].
Qed.

Lemma play_sanitised (events : list Event) (m : Machine) :
  sanitised (otp (dialog m)) → sanitised (otp (dialog (play events m))).
Proof.
  revert m. induction events as [| e events IH]; intros m Hm; simpl; [done |].
  apply IH. by apply fire_sanitised.
Qed.

(** X7.  Whatever is typed or pasted into the OTP field, the field holds
    decimal digits only, six at most, in every state the dialog reaches.
    So whenever the Verify button is enabled the code passes the format
    check and the attempts check of the handler: a click always sends the
    six digits, with the e-mail, to verify-otp; the handler's two error
    branches are never taken from the screen. *)
Theorem otp_field_sanitised (events : list Event) :
  let m := play events start in
  let d := dialog m in
  all_chars Str.is_digit (otp d) = true
  ∧ (String.length (otp d) ≤ 6)%nat
  ∧ (verify_disabled d = false →
       String.length (otp d) = 6%nat
       ∧ valid_format (otp d) = true
       ∧ handleVerifyOtp d
         = (setIsLoading true (setError EmptyString d),
            Some {| url := "http://localhost:8080/auth/verify-otp";
                    method := "POST";
                    body := JObj [("email", JStr (email d));
                                  ("otp", JStr (otp d))] |})).
Proof.
  intros m d.
  destruct (play_sanitised events start sanitised_empty) as [Hdigits Hlen].
  fold m in Hdigits, Hlen. fold d in Hdigits, Hlen.
  split_and!; [done | done |].
  intros Hen. unfold verify_disabled in Hen.
  apply orb_false_iff in Hen as [Hen Hmax].
  apply orb_false_iff in Hen as [_ Hsix]. apply negb_false_iff in Hsix.
  assert (Hsix' : String.length (otp d) = 6%nat).
  { apply Z.eqb_eq in Hsix. unfold Str.len in Hsix. lia. }
  assert (Hvalid : valid_format (otp d) = true).
  { unfold valid_format. rewrite Hsix, (trim_digits _ Hdigits).
    destruct (otp d); [discriminate | done]. }
  split_and!; [done | done |].
  unfold handleVerifyOtp. by rewrite Hvalid, Hmax.
Qed.

Lemma otp_field_sanitised_witness :
  let m := play (otp_sent ++ [TypeOtp " 12a3-45 6789"]) start in
  otp (dialog m) = "123456"
  ∧ valid_format (otp (dialog m)) = true.
Proof.
  intros m. split; [reflexivity |].
  destruct (otp_field_sanitised (otp_sent ++ [TypeOtp " 12a3-45 6789"]))
    as (_ & _ & Hsend).
  apply Hsend. reflexivity.
Defined.

End OtpField.

(** ** Replies at the dialog *)

Section DialogReplies.

Import LoginDialog LoginFlow.

Lemma timer_effect_reset (d : State) :
  let d' := timer_effect d (reset_on_close d) in
  step d' = StepEmail ∧ email d' = EmptyString ∧ otp d' = EmptyString
  ∧ attempts d' = 0 ∧ error d' = EmptyString ∧ otpSentTime d' = None
  ∧ timer d' = None ∧ isLoading d' = isLoading d.
Proof.
  unfold timer_effect. case_decide; [done |]. done.
Qed.

(** A dialog that is open on the e-mail step, loading, with nothing in
    flight and no countdown, answers to nothing but a remount. *)
Lemma dead_dialog (m : Machine) (e : Event) :
  open m = true → step (dialog m) = StepEmail → isLoading (dialog m) = true →
  timer (dialog m) = None → pending m = None →
  e ≠ Remount → fire e m = m.
Proof.
  intros Hopen Hstep Hl Ht Hp He.
  destruct e; cbn [fire]; rewrite ?Hstep, ?Hl, ?Ht, ?Hp, ?andb_false_r; try done.
  destruct m; simpl in *; by subst.
Qed.

(** X8.  After a reply that verifies the code, [login] is called once
    with the response built from the reply and the dialog is closed and
    reset (e-mail step, fields and errors empty, attempts 0, countdown
    stopped), but it is left loading: the success path never clears
    [isLoading].  Unless the layout mounts a fresh dialog (it does when
    the dashboard opens), the dialog opened again is dead: its fields
    and buttons are disabled and its close control is refused, so no
    event changes it. *)
Theorem verified_dialog_stays_loading
        (events : list Event) (email0 : string) (attempts0 : Z)
        (ok : bool) (data : JsVal) (now : Z) :
  let m := play events start in
  pending m = Some (PendingVerify email0 attempts0) →
  verification_failed ok data = Some false →
  let m' := fire (Reply (Responded ok (JsonBody data)) now) m in
  open m' = false
  ∧ logins m' = build_auth_response email0 data :: logins m
  ∧ requests m' = requests m
  ∧ pending m' = None
  ∧ step (dialog m') = StepEmail
  ∧ email (dialog m') = EmptyString ∧ otp (dialog m') = EmptyString
  ∧ error (dialog m') = EmptyString ∧ attempts (dialog m') = 0
  ∧ timer (dialog m') = None
  ∧ isLoading (dialog m') = true
  ∧ (∀ e, e ≠ Remount → fire e (fire OpenDialog m') = fire OpenDialog m').
Proof.
  intros m Hp Hok m'.
  pose proof (reachable_consistent events) as Hm. fold m in Hm.
  assert (Hl : isLoading (dialog m) = true) by (apply Hm; by rewrite Hp).
  assert (Em' : m' = close {| open := open m;
                              dialog := timer_effect (dialog m) (dialog m);
                              pending := None; requests := requests m;
                              logins := build_auth_response email0 data :: logins m |}).
  { subst m'. cbn [fire]. rewrite Hp. unfold on_verify_reply. by rewrite Hok. }
  rewrite timer_effect_same_deps in Em' by done.
  unfold close in Em'. cbn [dialog pending requests logins] in Em'.
  destruct (timer_effect_reset (dialog m))
    as (Hstep & Hemail & Hotp & Hatt & Herr & _ & Htimer & Hload).
  rewrite Hl in Hload.
  rewrite Em'. cbn [open logins requests pending dialog].
  split_and!; try done.
  intros e He. apply dead_dialog; try done.
Qed.

Lemma verified_dialog_stays_loading_witness :
  let m := play (otp_sent ++ [TypeOtp "123456"; ClickVerify]) start in
  let m' := fire (Reply verified 2000) m in
  isLoading (dialog m') = true
  ∧ fire CloseDialog (fire OpenDialog m') = fire OpenDialog m'.
Proof.
  intros m m'.
  destruct (verified_dialog_stays_loading
              (otp_sent ++ [TypeOtp "123456"; ClickVerify])
              "admin@example.com" 0 true (JObj [("token", JStr "t0k3n")]) 2000
              eq_refl eq_refl)
    as (_ & _ & _ & _ & _ & _ & _ & _ & _ & _ & Hl & Hdead).
  split; [exact Hl |]. apply Hdead. discriminate.
Defined.

(** X9.  A send-OTP request that fails, in whichever way (the fetch is
    rejected, the status is not ok with or without a JSON body), always
    leaves a non-empty error on screen, ends the loading state, and
    changes nothing else that matters: the dialog stays on the step it was
    on, with the same e-mail, attempts and send time. *)
Theorem failed_send_is_reported (r : FetchResult) (now : Z) (d : State)
        (Hfailed : ∀ payload, r ≠ Responded true payload) :
  let d' := on_send_reply r now d in
  error d' ≠ EmptyString
  ∧ isLoading d' = false
  ∧ step d' = step d ∧ email d' = email d ∧ otp d' = otp d
  ∧ attempts d' = attempts d ∧ otpSentTime d' = otpSentTime d
  ∧ success d' = success d.
Proof.
  assert (Hsend : ∀ message,
    let d' := send_failed message d in
    error d' ≠ EmptyString ∧ isLoading d' = false
    ∧ step d' = step d ∧ email d' = email d ∧ otp d' = otp d
    ∧ attempts d' = attempts d ∧ otpSentTime d' = otpSentTime d
    ∧ success d' = success d).
  { intros message. unfold send_failed. simpl. split_and!; try done.
    destruct (Str.empty message) eqn:E; [discriminate |].
    intros ->. discriminate E. }
  destruct r as [[|] [data | message] | message]; simpl.
  - by destruct (Hfailed (JsonBody data)).
  - by destruct (Hfailed (NotJson message)).
  - destruct (prop data "message"); apply Hsend.
  - apply Hsend.
  - apply Hsend.
Qed.

Lemma failed_send_is_reported_witness :
  error (on_send_reply (Responded false (JsonBody (JObj [("message", JArr [])])))
           1000 LoginDialog.initial)
  ≠ EmptyString.
Proof.
  apply (failed_send_is_reported
           (Responded false (JsonBody (JObj [("message", JArr [])])))
           1000 LoginDialog.initial).
  intros payload. discriminate.
Defined.

(** X11.  A verify-otp reply that never reaches the check (the fetch is
    rejected, or the body is not JSON) does not count as an attempt: the
    counter, the code typed and the log of logins stay as they are, the
    message of the error is shown, loading ends, and the Verify button is
    enabled again whenever six digits are in the field. *)
Theorem unreadable_reply_is_not_counted
        (events : list Event) (email0 : string) (attempts0 : Z)
        (r : FetchResult) (message : string) (now : Z) :
  let m := play events start in
  pending m = Some (PendingVerify email0 attempts0) →
  (r = Rejected message ∨ ∃ ok, r = Responded ok (NotJson message)) →
  let m' := fire (Reply r now) m in
  attempts (dialog m') = attempts (dialog m)
  ∧ attempts (dialog m') < 3
  ∧ otp (dialog m') = otp (dialog m)
  ∧ error (dialog m') = message
  ∧ isLoading (dialog m') = false
  ∧ pending m' = None
  ∧ requests m' = requests m ∧ logins m' = logins m ∧ open m' = open m
  ∧ verify_disabled (dialog m') = negb (Str.len (otp (dialog m)) =? 6).
Proof.
  intros m Hp Hr m'.
  pose proof (reachable_consistent events) as Hm. fold m in Hm.
  destruct (closure_current m Hm email0 attempts0 Hp) as (-> & Hlt & ->).
  assert (Em' : m' = {| open := open m;
                        dialog := timer_effect (dialog m)
                                    (setIsLoading false (setError message (dialog m)));
                        pending := None; requests := requests m;
                        logins := logins m |}).
  { subst m'. cbn [fire]. rewrite Hp.
    destruct Hr as [-> | [ok ->]]; reflexivity. }
  rewrite timer_effect_same_deps in Em' by done.
  rewrite Em'. cbn. split_and!; try done.
  unfold verify_disabled. cbn.
  assert (Hmax : (MAX_ATTEMPTS <=? attempts (dialog m)) = false)
    by (by apply Z.leb_gt).
  rewrite Hmax. by rewrite orb_false_r.
Qed.

Lemma unreadable_reply_is_not_counted_witness :
  let m := play (otp_sent ++ [TypeOtp "123456"; ClickVerify]) start in
  let m' := fire (Reply (Rejected "Failed to fetch") 2000) m in
  attempts (dialog m') = attempts (dialog m)
  ∧ error (dialog m') = "Failed to fetch".
Proof.
  intros m m'.
  destruct (unreadable_reply_is_not_counted
              (otp_sent ++ [TypeOtp "123456"; ClickVerify])
              "admin@example.com" 0 (Rejected "Failed to fetch")
              "Failed to fetch" 2000 eq_refl (or_introl eq_refl))
    as (Ha & _ & _ & He & _).
  split; [exact Ha | exact He].
Defined.

End DialogReplies.

(** ** Asking for a new OTP *)

Section ResendCycle.

Import LoginDialog LoginFlow.

Lemma timer_effect_to_email (before after : State) :
  step before = StepOtp → step after = StepEmail →
  timer_effect before after = setTimer None after.
Proof.
  intros Hb Ha. unfold timer_effect. case_decide as H.
  - destruct H as [H _]. congruence.
  - by rewrite Ha.
Qed.

Lemma timer_effect_to_otp (before after : State) (sent : Z) :
  step before = StepEmail → step after = StepOtp →
  otpSentTime after = Some sent → sent ≠ 0 →
  timer_effect before after = setTimer (Some sent) after.
Proof.
  intros Hb Ha Hs Hz. unfold timer_effect. case_decide as H.
  - destruct H as [H _]. congruence.
  - rewrite Ha, Hs. by destruct (Z.eqb_spec sent 0).
Qed.

(** X10.  Resend OTP gives a full new round.  From the OTP step, with the
    dialog idle, a click on Resend OTP returns to the e-mail step with the
    e-mail kept; a click on Send OTP then issues one request-otp for that
    e-mail, and when it succeeds at time [t] the dialog is back on the OTP
    step with an empty code, no error, [attempts] 0, and a countdown
    running from [t]: whatever the count was before, three verifications
    are possible again. *)
Theorem resend_starts_over (m : Machine) (payload : Body) (t : Z)
        (Hopen : open m = true)
        (Hstep : step (dialog m) = StepOtp)
        (Hidle : isLoading (dialog m) = false)
        (Hemail : Str.empty (Str.trim (email (dialog m))) = false)
        (Hclock : t ≠ 0) :
  let m1 := fire ClickResend m in
  let m3 := play [ClickSendOtp; Reply (Responded true payload) t] m1 in
  step (dialog m1) = StepEmail
  ∧ email (dialog m1) = email (dialog m)
  ∧ timer (dialog m1) = None
  ∧ requests m3
    = {| url := "http://localhost:8080/auth/request-otp"; method := "POST";
         body := JObj [("email", JStr (email (dialog m)))] |} :: requests m
  ∧ pending m3 = None
  ∧ step (dialog m3) = StepOtp
  ∧ email (dialog m3) = email (dialog m)
  ∧ otp (dialog m3) = EmptyString
  ∧ error (dialog m3) = EmptyString
  ∧ attempts (dialog m3) = 0
  ∧ otpSentTime (dialog m3) = Some t
  ∧ timer (dialog m3) = Some t
  ∧ isLoading (dialog m3) = false
  ∧ verify_disabled (dialog (fire (TypeOtp "123456") m3)) = false.
Proof.
  intros m1 m3.
  set (d1 := setTimer None (handleResendOtp (dialog m))).
  assert (E1 : m1 = {| open := open m; dialog := d1; pending := pending m;
                       requests := requests m; logins := logins m |}).
  { subst m1. cbn [fire]. rewrite Hstep, Hopen, Hidle. cbn [andb negb].
    unfold commit. rewrite timer_effect_to_email by done. by rewrite ?Hopen. }
  set (req := {| url := "http://localhost:8080/auth/request-otp"; method := "POST";
                 body := JObj [("email", JStr (email (dialog m)))] |}).
  set (d2 := setIsLoading true (setSuccess EmptyString (setError EmptyString d1))).
  assert (E2 : fire ClickSendOtp m1
               = {| open := open m; dialog := d2; pending := Some PendingSend;
                    requests := req :: requests m; logins := logins m |}).
  { rewrite E1. cbn [fire dialog open].
    change (step d1) with StepEmail. change (isLoading d1) with (isLoading (dialog m)).
    rewrite Hopen, Hidle. cbn [andb negb]. unfold issue, handleSendOtp.
    change (email d1) with (email (dialog m)). rewrite Hemail.
    cbn [fst snd dialog open pending requests logins].
    rewrite timer_effect_same_deps by done. by rewrite ?Hopen. }
  set (d3 := setTimer (Some t)
               (setIsLoading false
                  (setAttempts 0
                     (setOtpSentTime (Some t)
                        (setStep StepOtp (setSuccess MSG_OTP_SENT d2)))))).
  assert (E3 : m3 = {| open := open m; dialog := d3; pending := None;
                       requests := req :: requests m; logins := logins m |}).
  { subst m3. change (play [ClickSendOtp; Reply (Responded true payload) t] m1)
      with (fire (Reply (Responded true payload) t) (fire ClickSendOtp m1)).
    rewrite E2. cbn [fire pending dialog]. unfold settle.
    cbn [stay close_call next login_call open dialog pending requests logins
         on_send_reply].
    rewrite (timer_effect_to_otp _ _ t) by done. by rewrite ?Hopen. }
  rewrite E1, E3. cbn [dialog requests pending].
  split_and!; try done.
  - cbn [fire dialog open]. change (step d3) with StepOtp.
    change (isLoading d3) with false. rewrite Hopen. cbn [andb negb].
    unfold commit. cbn [dialog]. rewrite timer_effect_same_deps by done.
    reflexivity.
Qed.

Lemma resend_starts_over_witness :
  let m := play three_failures start in
  let m3 := play [ClickSendOtp; Reply (Responded true (JsonBody JNull)) 9000]
              (fire ClickResend m) in
  attempts (dialog m) = 3
  ∧ attempts (dialog m3) = 0
  ∧ timer (dialog m3) = Some 9000.
Proof.
  intros m m3.
  assert (Hopen : open m = true) by (vm_compute; reflexivity).
  assert (Hstep : step (dialog m) = StepOtp) by (vm_compute; reflexivity).
  assert (Hidle : isLoading (dialog m) = false) by (vm_compute; reflexivity).
  assert (Hemail : Str.empty (Str.trim (email (dialog m))) = false)
    by (vm_compute; reflexivity).
  assert (Hclock : 9000 ≠ 0) by discriminate.
  destruct (resend_starts_over m (JsonBody JNull) 9000
              Hopen Hstep Hidle Hemail Hclock)
    as (_ & _ & _ & _ & _ & _ & _ & _ & _ & Ha & _ & Ht & _).
  split; [vm_compute; reflexivity |]. split; [exact Ha | exact Ht].
Defined.

End ResendCycle.

(** ** The countdown label *)

Section CountdownLabel.

Import Display.

Lemma padded_table :
  forallb (fun n => String.eqb (padStart2 (pretty (Z.of_nat n)))
                               (two_digits (Z.of_nat n)))
          (seq 0 60) = true.
Proof. vm_compute. reflexivity. Qed.

Lemma negative_table :
  forallb (fun n => String.eqb (padStart2 (pretty (- Z.of_nat n)))
                               (pretty (- Z.of_nat n)))
          (seq 1 59) = true.
Proof. vm_compute. reflexivity. Qed.

Lemma padded_seconds (k : Z) :
  0 ≤ k < 60 → padStart2 (pretty k) = two_digits k.
Proof.
  intros Hk. pose proof padded_table as H. rewrite forallb_forall in H.
  specialize (H (Z.to_nat k)). rewrite Z2Nat.id in H by lia.
  apply String.eqb_eq, H, in_seq. lia.
Qed.

Lemma unpadded_negative (k : Z) :
  -60 < k < 0 → padStart2 (pretty k) = pretty k.
Proof.
  intros Hk. pose proof negative_table as H. rewrite forallb_forall in H.
  specialize (H (Z.to_nat (- k))). rewrite Z2Nat.id in H by lia.
  rewrite Z.opp_involutive in H.
  apply String.eqb_eq, H, in_seq. lia.
Qed.

(** X12.  [formatTime] on a non-negative number of seconds gives the
    minutes in decimal, a colon, and the seconds as exactly two digits,
    the first a zero below ten.  It does not clamp: for a value between
    -59 and -1, which the dialog stores when the tick that finds the OTP
    expired comes late, the label is [-1:] followed by the negative
    number itself. *)
Theorem formatTime_shape (seconds : Z) :
  (0 ≤ seconds →
     formatTime seconds
     = pretty (seconds / 60) +:+ ":" +:+ two_digits (seconds mod 60)
     ∧ String.length (two_digits (seconds mod 60)) = 2%nat)
  ∧ (-60 < seconds < 0 →
     formatTime seconds = "-1:" +:+ pretty seconds).
Proof.
  unfold formatTime. split.
  - intros Hs. rewrite Z.rem_mod_nonneg by lia.
    rewrite padded_seconds by (apply Z.mod_pos_bound; lia). done.
  - intros Hs.
    assert (Hq : seconds / 60 = -1) by (symmetry; apply (Z.div_unique _ _ _ (seconds + 60)); lia).
    assert (Hr : Z.rem seconds 60 = seconds) by (apply Z.rem_small_iff; lia).
    rewrite Hq, Hr, unpadded_negative by lia. reflexivity.
Qed.

Lemma formatTime_shape_witness :
  formatTime 545 = "9:05" ∧ formatTime (-5) = "-1:-5".
Proof.
  destruct (formatTime_shape 545) as (Hpos & _).
  destruct (formatTime_shape (-5)) as (_ & Hneg).
  split.
  - destruct Hpos as (E & _); [lia |]. exact E.
  - apply Hneg. lia.
Defined.

End CountdownLabel.

(** ** The pages behind the layout *)

Section PagesBehindLayout.

Import Layout UsersGate.

(** X13.  The pages repeat the gate of the layout, and the two agree:
    whenever the layout renders its children, the users page shows its
    table (never Verifying, never Access Denied) and the mounted
    dashboard page its overview (never null); and once the layout is
    mounted, a users page that shows its table is one for which the
    layout builds the shell, which puts the page on screen exactly when
    the user's [full_name] is a string or absent and throws otherwise; a
    users page that shows Access Denied lies behind the restricted
    screen. *)
Theorem pages_agree_with_layout {C : Type} (mounted loginDialogOpen : bool)
        (auth : AuthState) (children : C) :
  let view := DashboardLayoutContent mounted loginDialogOpen auth children in
  (shows is_children view = true →
     UsersPage auth = UsersTable
     ∧ DashboardPage true auth = PageOverview)
  ∧ (mounted = true → UsersPage auth = UsersTable →
     view = dashboard_shell (user auth) children loginDialogOpen
     ∧ (shows is_children view = true ↔ name_is_text (user auth))
     ∧ (¬ name_is_text (user auth) → view = None))
  ∧ (UsersPage auth = AccessDenied → mounted = true →
     view = Some (restricted_screen loginDialogOpen)).
Proof.
  pose proof (dashboard_shell_children (user auth) children loginDialogOpen)
    as Hchildren.
  pose proof (dashboard_shell_shows (user auth) children loginDialogOpen)
    as (_ & Hthrows).
  unfold DashboardLayoutContent, UsersPage, DashboardPage.
  destruct mounted, (AuthContext.isLoading auth), (isAuthenticated auth),
    (isAdmin auth); simpl; split_and!; try done.
Qed.

Lemma pages_agree_with_layout_witness :
  let auth := {| user := JObj [("user_type", JStr "ADMIN")];
                 token := JStr "t0k3n"; isLoading := false |} in
  UsersPage auth = UsersTable ∧ DashboardPage true auth = PageOverview.
Proof.
  intros auth.
  destruct (pages_agree_with_layout true false auth "users page") as (Hin & _).
  apply Hin. reflexivity.
Defined.

End PagesBehindLayout.

(** ** The mock API layer: create, update, soft delete *)

Section MockStore.

Import MockUsersPage MockApi.

Lemma findIndex_insert (id : string) (store : list User) (i : nat) (u v : User) :
  findIndex id store = Some i → store !! i = Some u →
  user_id v = user_id u →
  findIndex id (<[i := v]> store) = Some i.
Proof.
  revert i. induction store as [| w store IH]; intros i Hfind Hu Hid; [done |].
  simpl in Hfind.
  destruct (String.eqb (user_id w) id) eqn:E.
  - injection Hfind as <-. simpl in *. injection Hu as ->. by rewrite Hid, E.
  - destruct (findIndex id store) as [j |] eqn:Ej; [| done].
    injection Hfind as <-. simpl in *. rewrite E.
    by rewrite (IH j eq_refl Hu Hid).
Qed.

Lemma findIndex_found (id : string) (store : list User) (i : nat) :
  findIndex id store = Some i →
  ∃ u, store !! i = Some u ∧ user_id u = id.
Proof.
  intros H. pose proof (findIndex_spec id store) as Hspec. rewrite H in Hspec.
  destruct Hspec as (u & Hu & Hid & _). by exists u.
Qed.

(** X14.  Soft delete is idempotent: deleting an already deleted user
    again finds the same record, changes nothing, and returns the same
    inactive record; and on the page the row's Delete button is disabled
    from the first delete on. *)
Theorem soft_delete_idempotent (id : string) (store store' : list User)
        (returned : User) :
  softDeleteUser id store = inr (store', returned) →
  softDeleteUser id store' = inr (store', returned)
  ∧ (∀ isPending, MockUsersPage.delete_disabled isPending returned = true).
Proof.
  unfold softDeleteUser. intros H.
  destruct (findIndex id store) as [i |] eqn:Ei; [| done].
  destruct (findIndex_found id store i Ei) as (u & Hu & Hid).
  rewrite Hu in H. injection H as <- <-.
  split.
  - rewrite (findIndex_insert id store i u (deactivated u) Ei Hu eq_refl).
    rewrite list_lookup_insert_eq by (by eapply lookup_lt_Some).
    by rewrite list_insert_insert_eq.
  - intros isPending. unfold MockUsersPage.delete_disabled. simpl. apply orb_true_r.
Qed.

Lemma soft_delete_idempotent_witness :
  ∃ store' returned,
    softDeleteUser "bbbbbbbb-bbbb-bbbb-bbbb-bbbbbbbbbbbb" mockUsers
    = inr (store', returned)
    ∧ softDeleteUser "bbbbbbbb-bbbb-bbbb-bbbb-bbbbbbbbbbbb" store'
      = inr (store', returned).
Proof.
  destruct (softDeleteUser "bbbbbbbb-bbbb-bbbb-bbbb-bbbbbbbbbbbb" mockUsers)
    as [message | [store' returned]] eqn:E; [discriminate E |].
  exists store', returned. split; [reflexivity |].
  destruct (soft_delete_idempotent _ _ _ _ E) as (Hagain & _). exact Hagain.
Defined.

(** X15.  A soft delete can be undone: for a user that was active, the
    update that sets [is_active] to true, applied after the soft delete,
    gives back the list exactly as it was before the delete and returns
    the user's original record. *)
Theorem soft_delete_undone_by_update (id : string) (store : list User)
        (i : nat) (u : User) :
  findIndex id store = Some i → store !! i = Some u → is_active u = true →
  ∃ store' returned,
    softDeleteUser id store = inr (store', returned)
    ∧ store' ≠ store
    ∧ updateUser (reactivate id) store' = inr (store, u).
Proof.
  intros Hfind Hu Hactive.
  destruct (findIndex_found id store i Hfind) as (u' & Hu' & Hid).
  rewrite Hu in Hu'. injection Hu' as <-.
  exists (<[i := deactivated u]> store), (deactivated u).
  assert (Hlt : (i < length store)%nat) by (by eapply lookup_lt_Some).
  split_and!.
  - unfold softDeleteUser. by rewrite Hfind, Hu.
  - intros E. apply (f_equal (fun l => l !! i)) in E.
    rewrite list_lookup_insert_eq, Hu in E by done.
    injection E as E. apply (f_equal is_active) in E. simpl in E. congruence.
  - unfold updateUser. cbn [upd_user_id reactivate].
    rewrite (findIndex_insert id store i u (deactivated u) Hfind Hu eq_refl).
    rewrite list_lookup_insert_eq by done.
    assert (Hback : merged (deactivated u) (reactivate id) = u).
    { destruct u. simpl in *. by subst. }
    rewrite Hback, list_insert_insert_eq. by rewrite list_insert_id.
Qed.

Lemma soft_delete_undone_by_update_witness :
  ∃ store' returned,
    softDeleteUser "bbbbbbbb-bbbb-bbbb-bbbb-bbbbbbbbbbbb" mockUsers
    = inr (store', returned)
    ∧ store' ≠ mockUsers
    ∧ updateUser (reactivate "bbbbbbbb-bbbb-bbbb-bbbb-bbbbbbbbbbbb") store'
      = inr (mockUsers,
             {| society_id := "11111111-1111-1111-1111-111111111111";
                user_id := "bbbbbbbb-bbbb-bbbb-bbbb-bbbbbbbbbbbb";
                full_name := "Meena Owner"; email := "meena.owner@example.com";
                phone := "+91 90000 00001"; user_type := "OWNER";
                is_active := true |}).
Proof.
  apply (soft_delete_undone_by_update
           "bbbbbbbb-bbbb-bbbb-bbbb-bbbbbbbbbbbb" mockUsers 1); reflexivity.
Defined.

(** X16.  A created user goes to the front of the list, with every
    earlier record kept in order behind it; and because look-up by id
    takes the first match, an update or a soft delete for the new id
    always reaches the new record, even if the generated id happens to
    be one already in the list. *)
Theorem created_user_comes_first (data : CreateUserInput) (fresh_id : string)
        (store : list User) (values : CreateUserInput) :
  let created := createUser data fresh_id store in
  created.1 = created.2 :: store
  ∧ user_id created.2 = fresh_id
  ∧ length created.1 = S (length store)
  ∧ (∀ j, created.1 !! S j = store !! j)
  ∧ softDeleteUser fresh_id created.1
    = inr (deactivated created.2 :: store, deactivated created.2)
  ∧ updateUser (full_update fresh_id values) created.1
    = inr (merged created.2 (full_update fresh_id values) :: store,
           merged created.2 (full_update fresh_id values)).
Proof.
  intros created. subst created. unfold createUser. cbn [fst snd].
  split_and!; try done.
  - unfold softDeleteUser. cbn [findIndex user_id]. by rewrite String.eqb_refl.
  - unfold updateUser. cbn [findIndex user_id upd_user_id full_update].
    by rewrite String.eqb_refl.
Qed.

(** X17.  [updateUser] as the page calls it, with every field of the
    form: when the id is in the list, the first record with that id is
    replaced, at its place, by the form's values under the same id, the
    list keeps its length and all its other records; when the id is not
    in the list the call throws and nothing changes. *)
Theorem full_update_replaces (id : string) (values : CreateUserInput)
        (store : list User) :
  match updateUser (full_update id values) store with
  | inr (store', returned) =>
      ∃ i u,
        findIndex id store = Some i ∧ store !! i = Some u
        ∧ returned = {| society_id := new_society_id values; user_id := id;
                        full_name := new_full_name values;
                        email := new_email values; phone := new_phone values;
                        user_type := new_user_type values;
                        is_active := new_is_active values |}
        ∧ user_id returned = user_id u
        ∧ store' !! i = Some returned
        ∧ length store' = length store
        ∧ (∀ j, j ≠ i → store' !! j = store !! j)
  | inl message =>
      message = "User not found" ∧ ∀ u, u ∈ store → user_id u ≠ id
  end.
Proof.
  unfold updateUser. cbn [upd_user_id full_update].
  pose proof (findIndex_spec id store) as Hspec.
  destruct (findIndex id store) as [i |] eqn:Ei; [| done].
  destruct Hspec as (u & Hu & Hid & _). rewrite Hu.
  exists i, u. split_and!; try done.
  - apply list_lookup_insert_eq. by eapply lookup_lt_Some.
  - apply length_insert.
  - intros j Hj. by apply list_lookup_insert_ne.
Qed.

End MockStore.

Lemma full_update_replaces_witness :
  ∃ store' returned,
    MockApi.updateUser
      (MockApi.full_update "aaaaaaaa-aaaa-aaaa-aaaa-aaaaaaaaaaaa"
         {| MockApi.new_society_id := "11111111-1111-1111-1111-111111111111";
            MockApi.new_full_name := "John A. Admin";
            MockApi.new_email := "john@example.com";
            MockApi.new_phone := "+91 98765 43210";
            MockApi.new_user_type := "EC";
            MockApi.new_is_active := true |})
      MockUsersPage.mockUsers
    = inr (store', returned)
    ∧ length store' = length MockUsersPage.mockUsers
    ∧ MockUsersPage.user_type returned = "EC".
Proof.
  pose proof (full_update_replaces "aaaaaaaa-aaaa-aaaa-aaaa-aaaaaaaaaaaa"
         {| MockApi.new_society_id := "11111111-1111-1111-1111-111111111111";
            MockApi.new_full_name := "John A. Admin";
            MockApi.new_email := "john@example.com";
            MockApi.new_phone := "+91 98765 43210";
            MockApi.new_user_type := "EC";
            MockApi.new_is_active := true |}
         MockUsersPage.mockUsers) as H.
  destruct (MockApi.updateUser _ _) as [message | [store' returned]] eqn:E;
    [discriminate E |].
  destruct H as (i & u & _ & _ & Hreturned & _ & _ & Hlen & _).
  exists store', returned. split; [reflexivity |]. split; [exact Hlen |].
  rewrite Hreturned. reflexivity.
Defined.

(** ** More on search and filter *)

Section SearchMore.

Lemma toLowerCase_app (a b : string) :
  Str.toLowerCase (a +:+ b) = Str.toLowerCase a +:+ Str.toLowerCase b.
Proof. induction a as [| c a IH]; simpl; [done | by rewrite IH]. Qed.

Lemma append_assoc (a b c : string) : (a +:+ b) +:+ c = a +:+ (b +:+ c).
Proof.
  induction a as [| x a IH]; [done |].
  exact (f_equal (String x) IH).
Qed.

Lemma includes_trans (s t t' : string) :
  Str.includes t' t = true → Str.includes s t' = true → Str.includes s t = true.
Proof.
  rewrite !includes_spec. intros (p & q & ->) (pre & post & ->).
  exists (pre +:+ p), (q +:+ post). by rewrite !append_assoc.
Qed.

Lemma filter_sublist {A} (p q : A → bool) (l : list A) :
  (∀ x, p x = true → q x = true) →
  sublist (List.filter p l) (List.filter q l).
Proof.
  intros Hpq. induction l as [| x l IH]; simpl; [constructor |].
  destruct (p x) eqn:Ep.
  - rewrite (Hpq x Ep). by constructor.
  - destruct (q x); [by constructor | done].
Qed.

Lemma filter_twice {A} (p q : A → bool) (l : list A) :
  List.filter p (List.filter q l) = List.filter (fun x => q x && p x) l.
Proof.
  induction l as [| x l IH]; simpl; [done |].
  destruct (q x); simpl; [| done]. destruct (p x); by rewrite IH.
Qed.

(** X18.  The search ignores letter case in the term as well: two terms
    that differ only in the case of their letters give the same list, on
    the live page and (after trimming) on the page over the mock API. *)
Theorem search_ignores_case (term term' filter : string) :
  (Str.toLowerCase term = Str.toLowerCase term' →
     ∀ fetched, UsersPage.filteredUsers fetched term filter
                = UsersPage.filteredUsers fetched term' filter)
  ∧ (Str.toLowerCase (Str.trim term) = Str.toLowerCase (Str.trim term') →
     ∀ fetched, MockUsersPage.filteredUsers fetched term filter
                = MockUsersPage.filteredUsers fetched term' filter).
Proof.
  split.
  - intros Hcase fetched. unfold UsersPage.filteredUsers.
    apply filter_ext. intros u. unfold UsersPage.matches. rewrite Hcase.
    assert (Hempty : Str.empty term = Str.empty term').
    { destruct term, term'; simpl in *; done. }
    by rewrite Hempty.
  - intros Hcase fetched. unfold MockUsersPage.filteredUsers.
    apply filter_ext. intros u. unfold MockUsersPage.matches. by rewrite Hcase.
Qed.

Lemma search_ignores_case_witness :
  UsersPage.filteredUsers [] "MEENA" "ALL" = UsersPage.filteredUsers [] "meena" "ALL"
  ∧ MockUsersPage.filteredUsers MockUsersPage.mockUsers " MEENA " "ALL"
    = MockUsersPage.filteredUsers MockUsersPage.mockUsers "meena" "ALL".
Proof.
  destruct (search_ignores_case "MEENA" "meena" "ALL") as (Hlive & _).
  destruct (search_ignores_case " MEENA " "meena" "ALL") as (_ & Hmock).
  split; [apply Hlive | apply Hmock]; reflexivity.
Defined.

(** X19.  A term that contains another narrows the list: on the live
    page, if the lower case of a term occurs in the lower case of a
    longer term, then the users listed for the longer term are, in order,
    among those listed for the shorter one, under the same type filter. *)
Theorem longer_term_narrows (term longer filter : string)
        (fetched : list UsersPage.User) :
  Str.includes (Str.toLowerCase longer) (Str.toLowerCase term) = true →
  sublist (UsersPage.filteredUsers fetched longer filter)
          (UsersPage.filteredUsers fetched term filter)
  ∧ (length (UsersPage.filteredUsers fetched longer filter)
     ≤ length (UsersPage.filteredUsers fetched term filter))%nat.
Proof.
  intros Hin.
  assert (Hsub : sublist (UsersPage.filteredUsers fetched longer filter)
                         (UsersPage.filteredUsers fetched term filter)).
  { unfold UsersPage.filteredUsers. apply filter_sublist. intros u.
    unfold UsersPage.matches. rewrite !andb_true_iff, !orb_true_iff.
    intros [[[Hempty | Hname] | Hmail] Htype]; (split; [| done]).
    - apply empty_spec in Hempty. subst longer.
      left; left. apply empty_spec, toLowerCase_empty.
      apply includes_spec in Hin as (p & q & H).
      destruct p; [| done]. simpl in H.
      by destruct (Str.toLowerCase term).
    - left; right. by apply (includes_trans _ _ (Str.toLowerCase longer)).
    - right. by apply (includes_trans _ _ (Str.toLowerCase longer)). }
  split; [done | by apply sublist_length].
Qed.

Lemma longer_term_narrows_witness :
  UsersPage.filteredUsers residents "Meena.O" "ALL" = [meena]
  ∧ UsersPage.filteredUsers residents "ENA" "ALL" = [meena; deena]
  ∧ sublist (UsersPage.filteredUsers residents "Meena.O" "ALL")
            (UsersPage.filteredUsers residents "ENA" "ALL").
Proof.
  split; [reflexivity |]. split; [reflexivity |].
  destruct (longer_term_narrows "ENA" "Meena.O" "ALL" residents) as (Hsub & _);
    [reflexivity | exact Hsub].
Defined.

(** X20.  Search and type filter are independent: filtering by the term
    with the filter ALL and then by the type with an empty term, in
    either order, gives the list that both together give. *)
Theorem search_and_filter_compose (term filter : string)
        (fetched : list UsersPage.User) :
  UsersPage.filteredUsers (UsersPage.filteredUsers fetched term "ALL")
    EmptyString filter
  = UsersPage.filteredUsers fetched term filter
  ∧ UsersPage.filteredUsers (UsersPage.filteredUsers fetched EmptyString filter)
      term "ALL"
    = UsersPage.filteredUsers fetched term filter.
Proof.
  unfold UsersPage.filteredUsers. rewrite !filter_twice.
  split; apply filter_ext; intros u; unfold UsersPage.matches; simpl.
  - by rewrite andb_true_r.
  - rewrite andb_true_r. apply andb_comm.
Qed.

End SearchMore.

(** ** Which e-mail a request carries *)

Section RequestEmail.

Import LoginDialog LoginFlow Display.

Lemma trimEnd_keeps_head (c : ascii) (s : string) :
  Str.is_space c = false → Str.trimEnd (String c s) ≠ EmptyString.
Proof. intros Hc. simpl. destruct (Str.trimEnd s); [by rewrite Hc | done]. Qed.

Lemma trimStart_spaces (s : string) :
  Str.trimStart s = EmptyString ↔ all_chars Str.is_space s = true.
Proof.
  induction s as [| c s IH]; simpl; [done |].
  destruct (Str.is_space c); simpl; [done |]. split; discriminate.
Qed.

Lemma trimStart_head (s : string) :
  match Str.trimStart s with
  | String c _ => Str.is_space c = false
  | EmptyString => True
  end.
Proof.
  induction s as [| c s IH]; simpl; [done |].
  destruct (Str.is_space c) eqn:E; [done | by simpl].
Qed.

Lemma trim_blank (s : string) :
  Str.empty (Str.trim s) = true ↔ all_chars Str.is_space s = true.
Proof.
  rewrite empty_spec, <- trimStart_spaces. unfold Str.trim.
  pose proof (trimStart_head s) as Hhead.
  destruct (Str.trimStart s) as [| c rest] eqn:E; [done |].
  split; [| discriminate]. intros H. by apply trimEnd_keeps_head in H.
Qed.

(** X21.  Send OTP issues a request exactly when the e-mail field holds
    something other than white space; a blank field gets the message to
    enter an address and nothing is sent.  The request is a POST to
    request-otp whose body holds the e-mail as it was typed, white space
    at its ends included, and the dialog is loading until it settles. *)
Theorem send_needs_an_email (d : State) :
  (all_chars Str.is_space (email d) = true →
     handleSendOtp d = (setError MSG_ENTER_EMAIL d, None))
  ∧ (all_chars Str.is_space (email d) = false →
     handleSendOtp d
     = (setIsLoading true (setSuccess EmptyString (setError EmptyString d)),
        Some {| url := "http://localhost:8080/auth/request-otp"; method := "POST";
                body := JObj [("email", JStr (email d))] |})).
Proof.
  unfold handleSendOtp. split; intros H.
  - apply trim_blank in H. by rewrite H.
  - destruct (Str.empty (Str.trim (email d))) eqn:E; [| done].
    apply trim_blank in E. congruence.
Qed.

Lemma send_needs_an_email_witness :
  (handleSendOtp (setEmail "   " LoginDialog.initial)).2 = None
  ∧ (body <$> (handleSendOtp (setEmail " admin@example.com " LoginDialog.initial)).2)
    = Some (JObj [("email", JStr " admin@example.com ")]).
Proof.
  destruct (send_needs_an_email (setEmail "   " LoginDialog.initial)) as (Hblank & _).
  destruct (send_needs_an_email (setEmail " admin@example.com " LoginDialog.initial))
    as (_ & Hsent).
  split.
  - rewrite Hblank; reflexivity.
  - rewrite Hsent; reflexivity.
Defined.

Lemma on_verify_reply_step (email0 : string) (attempts0 : Z)
      (r : FetchResult) (d : State) :
  step (next (on_verify_reply email0 attempts0 r d)) = step d.
Proof.
  destruct r as [ok [data | message] | message]; simpl; try done.
  destruct (verification_failed ok data) as [[|] |]; simpl; try done.
  destruct (0 <? MAX_ATTEMPTS - (attempts0 + 1)); simpl; try done.
  by destruct (prop data "message").
Qed.

Lemma on_send_reply_email (r : FetchResult) (now : Z) (d : State) :
  email (on_send_reply r now d) = email d.
Proof.
  destruct r as [[|] [data | message] | message]; simpl; try done.
  by destruct (prop data "message").
Qed.

Lemma close_step (m : Machine) :
  step (dialog (close m)) = StepEmail ∧ pending (close m) = pending m.
Proof. unfold close. cbn [dialog pending]. by rewrite timer_effect_step. Qed.

Lemma email_sent_fire (e : Event) (m : Machine) :
  consistent m → email_sent m → email_sent (fire e m).
Proof.
  intros Hm Hsent. unfold email_sent in *.
  set (L := last_send (requests m) = Some (JObj [("email", JStr (email (dialog m)))])) in *.
  assert (H1 : step (dialog m) = StepOtp → L) by (intros; apply Hsent; by left).
  assert (H2 : pending m = Some PendingSend → L) by (intros; apply Hsent; by right).
  assert (Hidle : isLoading (dialog m) = false → pending m = None)
    by (by apply consistent_idle).
  clear Hsent.
  destruct e as [| | value | value | | | | now | r now |]; cbn [fire].
  - (* OpenDialog *)
    cbn. intros [H | H]; [by apply H1 | by apply H2].
  - (* CloseDialog *)
    destruct (open m), (isLoading (dialog m)) eqn:El; cbn [andb negb];
      try (intros [H | H]; [by apply H1 | by apply H2]).
    destruct (close_step m) as (Hs & Hp).
    rewrite Hs, Hp, Hidle by done. intros [? | ?]; discriminate.
  - (* TypeEmail *)
    destruct (step (dialog m)) eqn:Es; [| intros [H | H]; [by apply H1 | by apply H2]].
    destruct (open m), (isLoading (dialog m)) eqn:El; cbn [andb negb];
      try (rewrite Es; intros [H | H]; [discriminate | by apply H2]).
    unfold commit. cbn [dialog pending requests].
    rewrite timer_effect_step, Hidle by done. cbn [step setEmail].
    rewrite Es. intros [? | ?]; discriminate.
  - (* TypeOtp *)
    destruct (step (dialog m)) eqn:Es; [rewrite Es; intros [H | H]; [discriminate | by apply H2] |].
    destruct (open m && negb (isLoading (dialog m)));
      [| rewrite Es; intros _; by apply H1].
    unfold commit. cbn [dialog pending requests].
    rewrite timer_effect_email. intros _. by apply H1.
  - (* ClickSendOtp *)
    destruct (step (dialog m)) eqn:Es; [| rewrite Es; intros _; by apply H1].
    destruct (open m), (isLoading (dialog m)) eqn:El; cbn [andb negb];
      try (rewrite Es; intros [H | H]; [discriminate | by apply H2]).
    unfold issue, handleSendOtp.
    destruct (Str.empty (Str.trim (email (dialog m)))); cbn [fst snd].
    + unfold commit. cbn [dialog pending requests].
      rewrite timer_effect_step, Hidle by done. cbn [step setError].
      rewrite Es. intros [? | ?]; discriminate.
    + cbn [dialog pending requests]. by rewrite timer_effect_email.
  - (* ClickVerify *)
    destruct (step (dialog m)) eqn:Es; [rewrite Es; intros [H | H]; [discriminate | by apply H2] |].
    destruct (open m && negb (verify_disabled (dialog m)));
      [| rewrite Es; intros _; by apply H1].
    unfold issue.
    destruct (handleVerifyOtp_cases (dialog m))
      as [(_ & E) | [(_ & _ & E) | (_ & _ & req & E & Hurl & _)]]; rewrite E;
      cbn [fst snd]; unfold commit; cbn [dialog pending requests];
      rewrite timer_effect_email; intros _.
    + by apply H1.
    + by apply H1.
    + cbn [last_send]. rewrite Hurl. cbn. by apply H1.
  - (* ClickResend *)
    destruct (step (dialog m)) eqn:Es; [rewrite Es; intros [H | H]; [discriminate | by apply H2] |].
    destruct (open m), (isLoading (dialog m)) eqn:El; cbn [andb negb];
      try (rewrite Es; intros _; by apply H1).
    unfold commit. cbn [dialog pending requests].
    rewrite timer_effect_step, Hidle by done. intros [? | ?]; discriminate.
  - (* Tick *)
    destruct (timer (dialog m)) as [sent |];
      [| intros [H | H]; [by apply H1 | by apply H2]].
    unfold commit. cbn [dialog pending requests].
    rewrite timer_effect_step, timer_effect_email.
    assert (Hframe : step (on_interval sent now (dialog m)) = step (dialog m)
                     ∧ email (on_interval sent now (dialog m)) = email (dialog m)).
    { unfold on_interval.
      by destruct (OTP_EXPIRY_MINUTES * 60 - (now - sent) / 1000 <=? 0). }
    destruct Hframe as [-> ->]. intros [H | H]; [by apply H1 | by apply H2].
  - (* Reply *)
    destruct (pending m) as [[| email0 attempts0] |] eqn:Ep.
    + unfold settle. cbn [stay close_call next login_call dialog pending requests].
      rewrite timer_effect_email, on_send_reply_email. intros _. by apply H2.
    + unfold settle. destruct (close_call _).
      * match goal with
        | |- context [close ?m1] =>
            destruct (close_step m1) as (Hs & Hp); rewrite Hs, Hp
        end. intros [? | ?]; discriminate.
      * cbn [dialog pending requests].
        rewrite timer_effect_step, timer_effect_email, on_verify_reply_step.
        destruct (on_verify_reply_attempts email0 attempts0 r (dialog m))
          as (_ & _ & _ & ->).
        intros [Hs | ?]; [by apply H1 | discriminate].
    + rewrite Ep. intros [H | H]; [by apply H1 | discriminate].
  - (* Remount *)
    destruct (pending m) eqn:Ep.
    + rewrite Ep. intros [H | H]; [by apply H1 | by apply H2].
    + cbn. intros [? | ?]; discriminate.
Qed.

Lemma email_sent_play (events : list Event) (m : Machine) :
  consistent m → email_sent m → email_sent (play events m).
Proof.
  revert m. induction events as [| e events IH]; intros m Hm Hs; simpl; [done |].
  apply IH; [by apply consistent_fire | by apply email_sent_fire].
Qed.

(** X22.  Every verify-otp request carries the e-mail address the OTP was
    asked for: in whatever way the dialog got there, the e-mail in the
    body of a verify request is the one in the body of the latest
    request-otp request, and the code is the one in the OTP field. *)
Theorem verify_uses_the_sent_email (events : list Event) (e : Event)
        (req : Request) :
  let m := play events start in
  requests (fire e m) = req :: requests m →
  url req = "http://localhost:8080/auth/verify-otp" →
  ∃ address,
    last_send (requests m) = Some (JObj [("email", JStr address)])
    ∧ body req = JObj [("email", JStr address); ("otp", JStr (otp (dialog m)))].
Proof.
  intros m Hlog Hurl.
  pose proof (reachable_consistent events) as Hm. fold m in Hm.
  assert (Hsent : email_sent m)
    by (apply email_sent_play; [apply consistent_start | intros [? | ?]; discriminate]).
  destruct (fire_requests e m) as [Hsame | (req' & Hgrow & Hwho)].
  - rewrite Hsame in Hlog. apply (f_equal length) in Hlog. simpl in Hlog. lia.
  - rewrite Hgrow in Hlog. injection Hlog as ->.
    destruct Hwho as [(_ & Hsend) | (-> & _ & _ & _ & Hbody)].
    + rewrite Hsend in Hurl. discriminate.
    + exists (email (dialog m)). split; [| done].
      apply Hsent. left.
      destruct (step (dialog m)) eqn:Es; [| done].
      cbn [fire] in Hgrow. rewrite Es in Hgrow.
      apply (f_equal length) in Hgrow. simpl in Hgrow. lia.
Qed.

Lemma verify_uses_the_sent_email_witness :
  let m := play (otp_sent ++ [TypeOtp "123456"]) start in
  ∃ address,
    last_send (requests m) = Some (JObj [("email", JStr address)])
    ∧ LoginDialog.body
        {| url := "http://localhost:8080/auth/verify-otp"; method := "POST";
           body := JObj [("email", JStr "admin@example.com");
                         ("otp", JStr "123456")] |}
      = JObj [("email", JStr address); ("otp", JStr (otp (dialog m)))].
Proof.
  intros m.
  apply (verify_uses_the_sent_email (otp_sent ++ [TypeOtp "123456"]) ClickVerify);
    [vm_compute; reflexivity | reflexivity].
Defined.

End RequestEmail.
